(** * bulk: batched multi-row INSERT builder (src/insert.go)

    A shallow embedding of the [Bulk] builder of package [bulk] and the
    properties of its three methods [Init], [PrepareValues] and [Insert].

    Modelling conventions
    - Go [string] is a byte sequence: [string] of the Standard Library,
      [len] counts bytes and slicing is by byte offsets.
    - Go [int] is a 64-bit signed integer: [Z] with the wrap-around of
      every [+], [-] and [*] written out ([wrap]).  [len] of a slice or a
      string is returned as it is.
    - [[]interface{}] is a [list V] for an arbitrary type [V] of values:
      the builder never inspects a value.
    - a run-time panic (slice bounds out of range, negative Repeat count,
      integer division by zero) is an explicit result.
    - the database is an opaque collaborator: its answers are a function
      of the calls it has received so far, and [Insert] threads the log of
      calls. *)

From Stdlib Require Import ZArith List String Ascii Bool Lia QArith Qround.
From Stdlib Require Import DecimalString.
Import ListNotations.

Local Open Scope string_scope.
Local Open Scope Z_scope.

(** ** Go primitives *)

Module Go.

Definition int_min : Z := - 2 ^ 63.
Definition int_max : Z := 2 ^ 63 - 1.

(** Two's complement wrap-around of a 64-bit signed integer. *)
Definition wrap (z : Z) : Z := (z - int_min) mod 2 ^ 64 + int_min.

Definition add (a b : Z) : Z := wrap (a + b).
Definition sub (a b : Z) : Z := wrap (a - b).
Definition mul (a b : Z) : Z := wrap (a * b).

(** [a / b] on ints: truncated division, a panic when [b] is zero. *)
Definition div (a b : Z) : option Z :=
  if b =? 0 then None else Some (wrap (Z.quot a b)).

(** [len(s)] of a string and of a slice. *)
Definition slen (s : string) : Z := Z.of_nat (String.length s).
Definition len {A : Type} (l : list A) : Z := Z.of_nat (List.length l).

(** Byte-wise prefix and suffix of a string. *)
Fixpoint take (n : nat) (s : string) : string :=
  match n, s with
  | S k, String c s' => String c (take k s')
  | _, _ => EmptyString
  end.

Fixpoint drop (n : nat) (s : string) : string :=
  match n, s with
  | S k, String _ s' => drop k s'
  | _, _ => s
  end.

(** [s[lo:hi]] on a string: panics unless [0 <= lo <= hi <= len(s)]. *)
Definition slice (s : string) (lo hi : Z) : option string :=
  if (0 <=? lo) && (lo <=? hi) && (hi <=? slen s)
  then Some (take (Z.to_nat (hi - lo)) (drop (Z.to_nat lo) s))
  else None.

(** [s[lo:]] on a string. *)
Definition slice_from (s : string) (lo : Z) : option string :=
  slice s lo (slen s).

(** [l[lo:hi]] on a slice.  Go allows [hi] up to the capacity of [l]; the
    model has no capacity and panics as soon as [hi] exceeds the length,
    so a result of the model is always a result of the code. *)
Definition vslice {A : Type} (l : list A) (lo hi : Z) : option (list A) :=
  if (0 <=? lo) && (lo <=? hi) && (hi <=? len l)
  then Some (firstn (Z.to_nat (hi - lo)) (skipn (Z.to_nat lo) l))
  else None.

Definition vslice_from {A : Type} (l : list A) (lo : Z) : option (list A) :=
  vslice l lo (len l).

(** [strings.Join]. *)
Definition Join (elems : list string) (sep : string) : string :=
  String.concat sep elems.

(** [strings.Repeat]: panics on a negative count. *)
Fixpoint rep (s : string) (n : nat) : string :=
  match n with
  | O => EmptyString
  | S k => s ++ rep s k
  end.

Definition Repeat (s : string) (count : Z) : option string :=
  if count <? 0 then None else Some (rep s (Z.to_nat count)).

(** [strings.Index]: offset of the first occurrence of [substr], or -1. *)
Fixpoint Index (s substr : string) : Z :=
  if String.prefix substr s then 0
  else match s with
       | EmptyString => -1
       | String _ s' =>
           let r := Index s' substr in
           if r <? 0 then -1 else r + 1
       end.

(** [strings.Split] for a non-empty separator: the pieces between the
    non-overlapping occurrences of [sep], found from the left.  [skip]
    counts the bytes of a separator still to pass over and [cur] is the
    piece being read. *)
Fixpoint split_from (sep : string) (skip : nat) (cur s : string)
  : list string :=
  match s with
  | EmptyString => [cur]
  | String c s' =>
      match skip with
      | S k => split_from sep k cur s'
      | O =>
          if String.prefix sep s
          then cur :: split_from sep (String.length sep - 1) EmptyString s'
          else split_from sep O (cur ++ String c EmptyString) s'
      end
  end.

Definition Split (s sep : string) : list string :=
  split_from sep O EmptyString s.

(** The [%v] verb of package fmt on an int. *)
Definition itoa (z : Z) : string := NilZero.string_of_int (Z.to_int z).

End Go.

(** ** The builder *)

Definition PLACEHOLDER_LIMIT : Z := 60000.

Section Builder.

(** The values rows are made of ([interface{}]). *)
Variable V : Type.

Record Bulk : Type := mkBulk {
  initStr : string;
  placeholderStr : string;
  vals : list V;
  rows : Z;
  valuesPerRow : Z;
  placeholderStrHelper : string
}.

(** The zero value of the struct, [Bulk{}]. *)
Definition zero : Bulk := mkBulk EmptyString EmptyString [] 0 0 EmptyString.

(** [Init]: every field but [placeholderStr] is assigned.  [None] is the
    panic of [strings.Repeat] on a negative count (no column). *)
Definition Init (b : Bulk) (tableName : string) (s : list string)
  : option Bulk :=
  let initStr' :=
    "INSERT INTO " ++ tableName ++ "(" ++ Go.Join s ", " ++ ") VALUES " in
  let valuesPerRow' := Go.len s in
  match Go.Repeat ",?" (Go.sub valuesPerRow' 1) with
  | None => None
  | Some r =>
      Some (mkBulk initStr' (placeholderStr b) [] 0 valuesPerRow'
                   ("(?" ++ r ++ "),"))
  end.

(** The text of the error of [PrepareValues]. *)
Definition arity_error (inserted required : Z) : string :=
  "ERROR: Inserted a wrong amount of values: Inserted: " ++ Go.itoa inserted
  ++ "  Required: " ++ Go.itoa required ++ " " ++ String "010"%char EmptyString.

(** [PrepareValues]: the builder after the call and the error, if any. *)
Definition PrepareValues (b : Bulk) (vs : list V) : Bulk * option string :=
  if negb (Go.len vs =? valuesPerRow b)
  then (b, Some (arity_error (Go.len vs) (valuesPerRow b)))
  else (mkBulk (initStr b)
               (placeholderStr b ++ placeholderStrHelper b)
               (vals b ++ vs)%list
               (Go.add (rows b) 1)
               (valuesPerRow b)
               (placeholderStrHelper b),
        None).

(** *** The executor *)

(** The errors of the driver. *)
Variable E : Type.

(** A call on the database: [db.Prepare(text)], and [stmt.Exec(args...)]
    on the statement prepared from [text]. *)
Inductive call : Type :=
| CPrepare (text : string)
| CExec (text : string) (args : list V).

(** The driver: whether a call fails, given the calls made before it. *)
Record DB : Type := mkDB {
  prepare_err : list call -> string -> option E;
  exec_err : list call -> string -> list V -> option E
}.

(** What a computation ends with: a value, an error returned to the
    caller, or a panic. *)
Inductive res (A : Type) : Type :=
| Val (a : A)
| Err (e : E)
| Panic.

Arguments Val {A}.
Arguments Err {A}.
Arguments Panic {A}.

(** [Insert] reads and writes the builder and talks to the driver: a
    state monad over the builder and the log of calls, with errors. *)
Definition M (A : Type) : Type := Bulk * list call -> (Bulk * list call) * res A.

Definition ret {A : Type} (a : A) : M A := fun st => (st, Val a).

Definition bind {A B : Type} (m : M A) (k : A -> M B) : M B :=
  fun st =>
    match m st with
    | (st', Val a) => k a st'
    | (st', Err e) => (st', Err e)
    | (st', Panic) => (st', Panic)
    end.

Notation "x <- m ;; k" := (bind m (fun x => k))
  (at level 61, m at next level, right associativity).
Notation "m ;; k" := (bind m (fun _ => k))
  (at level 61, right associativity).

(** A Go operation that may panic. *)
Definition try {A : Type} (o : option A) : M A :=
  fun st => (st, match o with Some a => Val a | None => Panic end).

Definition get : M Bulk := fun st => (st, Val (fst st)).

Definition set_placeholderStr (p : string) : M unit :=
  fun st =>
    let b := fst st in
    ((mkBulk (initStr b) p (vals b) (rows b) (valuesPerRow b)
             (placeholderStrHelper b), snd st), Val tt).

(** [stmt, err := db.Prepare(str); if err != nil { return err }]: the
    statement is known by its text. *)
Definition db_Prepare (db : DB) (str : string) : M string :=
  fun st =>
    ((fst st, (snd st ++ [CPrepare str])%list),
     match prepare_err db (snd st) str with
     | None => Val str
     | Some e => Err e
     end).

(** [_, err = stmt.Exec(vals...); if err != nil { return err }]. *)
Definition stmt_Exec (db : DB) (stmt : string) (args : list V) : M unit :=
  fun st =>
    ((fst st, (snd st ++ [CExec stmt args])%list),
     match exec_err db (snd st) stmt args with
     | None => Val tt
     | Some e => Err e
     end).

(** *** Insert *)

(** The [ON DUPLICATE KEY UPDATE] clause, lines 48-56 and 94-102: the
    columns are read back from [initStr] and split on [sep]. *)
Definition onDuplicate (initStr sep : string) : option string :=
  let firstIndex := Go.Index initStr "(" in
  let secondIndex := Go.Index initStr ")" in
  match Go.slice initStr (Go.add firstIndex 1) secondIndex with
  | None => None
  | Some columnsStr =>
      let columns := Go.Split columnsStr sep in
      let endStr :=
        fold_left (fun endStr v => endStr ++ (v ++ "=VALUES(" ++ v ++ "),"))
                  columns " ON DUPLICATE KEY UPDATE " in
      Go.slice endStr 0 (Go.sub (Go.slen endStr) 1)
  end.

(** Modelled from the spec: [helper.RoundUp] of package
    github.com/daniloor/helper, which is not part of the sources; the
    batch count is the ceiling of the quotient.  A float64 is modelled as
    the rational it stands for (conversion and division are exact to the
    ceiling for every length a slice can have). *)
Definition RoundUp (x : Q) : Z := Qceiling x.

(** The branch of line 41, [len(b.vals) < PLACEHOLDER_LIMIT]. *)
Definition insertAll (db : DB) (replaceOnDuplicate : bool) : M unit :=
  b <- get ;;
  p <- try (Go.slice (placeholderStr b) 0
                     (Go.sub (Go.slen (placeholderStr b)) 1)) ;;
  set_placeholderStr p ;;
  b <- get ;;
  let str := initStr b ++ placeholderStr b in
  str <- (if replaceOnDuplicate
          then endStr <- try (onDuplicate (initStr b) ",") ;;
               ret (str ++ endStr)
          else ret str) ;;
  stmt <- db_Prepare db str ;;
  stmt_Exec db stmt (vals b).

(** Lines 80-104: the text and the values of batch [i]. *)
Definition assemble (b : Bulk) (replaceOnDuplicate : bool)
    (batchs rowsPerBatch charactersPerBatch i : Z)
  : option (string * list V) :=
  let cut :=
    if i =? Go.sub batchs 1
    then
      match Go.slice_from (placeholderStr b) (Go.mul charactersPerBatch i),
            Go.vslice_from (vals b)
              (Go.mul (Go.mul rowsPerBatch (valuesPerRow b)) i) with
      | Some p, Some vs => Some (initStr b ++ p, vs)
      | _, _ => None
      end
    else
      match Go.slice (placeholderStr b) (Go.mul charactersPerBatch i)
              (Go.mul charactersPerBatch (Go.add i 1)),
            Go.vslice (vals b)
              (Go.mul (Go.mul rowsPerBatch (valuesPerRow b)) i)
              (Go.mul (Go.mul rowsPerBatch (valuesPerRow b)) (Go.add i 1)) with
      | Some p, Some vs => Some (initStr b ++ p, vs)
      | _, _ => None
      end in
  match cut with
  | None => None
  | Some (str, vs) =>
      match Go.slice str 0 (Go.sub (Go.slen str) 1) with
      | None => None
      | Some str =>
          if replaceOnDuplicate
          then match onDuplicate (initStr b) ", " with
               | None => None
               | Some endStr => Some (str ++ endStr, vs)
               end
          else Some (str, vs)
      end
  end.

(** The loop of line 79, [for i := 0; i < batchs; i++].  [n] bounds the
    iterations left; [Z.to_nat (batchs - i)] of them are enough. *)
Fixpoint batchLoop (db : DB) (b : Bulk) (replaceOnDuplicate : bool)
    (batchs rowsPerBatch charactersPerBatch : Z) (n : nat) (i : Z)
  : M unit :=
  match n with
  | O => ret tt
  | S n' =>
      if i <? batchs
      then
        sv <- try (assemble b replaceOnDuplicate batchs rowsPerBatch
                            charactersPerBatch i) ;;
        stmt <- db_Prepare db (fst sv) ;;
        stmt_Exec db stmt (snd sv) ;;
        batchLoop db b replaceOnDuplicate batchs rowsPerBatch
                  charactersPerBatch n' (Go.add i 1)
      else ret tt
  end.

(** The branch of line 69. *)
Definition insertBatches (limit : Z) (db : DB) (replaceOnDuplicate : bool)
  : M unit :=
  b <- get ;;
  let batchsF := (inject_Z (Go.len (vals b)) / inject_Z limit)%Q in
  let batchs := RoundUp batchsF in
  rowsPerBatch <- try (Go.div limit (valuesPerRow b)) ;;
  let charactersPerPlaceholder := Go.mul 2 (Go.add (valuesPerRow b) 1) in
  let charactersPerBatch := Go.mul rowsPerBatch charactersPerPlaceholder in
  batchLoop db b replaceOnDuplicate batchs rowsPerBatch charactersPerBatch
            (Z.to_nat batchs) 0.

(** [Insert], with the constant [PLACEHOLDER_LIMIT] as a parameter. *)
Definition InsertWith (limit : Z) (db : DB) (replaceOnDuplicate : bool)
  : M unit :=
  b <- get ;;
  if Go.len (vals b) <? limit
  then insertAll db replaceOnDuplicate
  else insertBatches limit db replaceOnDuplicate.

Definition Insert : DB -> bool -> M unit := InsertWith PLACEHOLDER_LIMIT.

(** Running [Insert] on a builder, the driver having received no call. *)
Definition run (m : M unit) (b : Bulk) : Bulk * list call * res unit :=
  m (b, []).

End Builder.

Arguments mkBulk {V}.
Arguments initStr {V}.
Arguments placeholderStr {V}.
Arguments vals {V}.
Arguments rows {V}.
Arguments valuesPerRow {V}.
Arguments placeholderStrHelper {V}.
Arguments zero {V}.
Arguments Init {V}.
Arguments PrepareValues {V}.
Arguments CPrepare {V}.
Arguments CExec {V}.
Arguments mkDB {V E}.
Arguments prepare_err {V E}.
Arguments exec_err {V E}.
Arguments Val {E A}.
Arguments Err {E A}.
Arguments Panic {E A}.
Arguments InsertWith {V E}.
Arguments Insert {V E}.
Arguments insertAll {V E}.
Arguments insertBatches {V E}.
Arguments batchLoop {V E}.
Arguments assemble {V}.
Arguments run {V E}.
Arguments ret {V E A}.
Arguments bind {V E A B}.
Arguments try {V E A}.
Arguments get {V E}.
Arguments set_placeholderStr {V E}.
Arguments db_Prepare {V E}.
Arguments stmt_Exec {V E}.
Arguments onDuplicate : simpl never.

(** ** Notions the properties are stated with *)

(** A string without its last byte. *)
Definition trimLast (s : string) : string :=
  Go.take (String.length s - 1) s.

(** The last [k] bytes of a string. *)
Definition lastn (k : nat) (s : string) : string :=
  Go.drop (String.length s - k) s.

(** The number of placeholder markers of a text. *)
Fixpoint markers (s : string) : Z :=
  match s with
  | EmptyString => 0
  | String c s' => (if Ascii.eqb c "?" then 1 else 0) + markers s'
  end.

(** The ceiling of [n / d] on integers, for [d > 0]. *)
Definition ceil_div (n d : Z) : Z := (n + d - 1) / d.

Section Notions.

Context {V E : Type}.

(** A sequence of [PrepareValues] calls; a rejected row leaves the builder
    as it was and the caller goes on. *)
Definition accumulate (b : Bulk V) (rs : list (list V)) : Bulk V :=
  fold_left (fun b r => fst (PrepareValues b r)) rs b.

(** A builder as a caller gets it: [Init] on the zero value, then rows. *)
Definition built (tableName : string) (cols : list string)
    (rs : list (list V)) : option (Bulk V) :=
  option_map (fun b => accumulate b rs) (Init zero tableName cols).

(** The rows [PrepareValues] accepts. *)
Definition accepted (b : Bulk V) (rs : list (list V)) : list (list V) :=
  filter (fun r => Go.len r =? valuesPerRow b) rs.

(** The calls of batches that are prepared and executed one after the
    other. *)
Definition calls (l : list (string * list V)) : list (call V) :=
  flat_map (fun sv => [CPrepare (fst sv); CExec (fst sv) (snd sv)]) l.

(** A driver that never fails. *)
Definition always_ok (db : DB V E) : Prop :=
  (forall log t, prepare_err db log t = None)
  /\ (forall log t a, exec_err db log t a = None).

(** The driver accepts the batches [l], received after the calls [log]. *)
Fixpoint succeeds (db : DB V E) (log : list (call V))
    (l : list (string * list V)) : Prop :=
  match l with
  | [] => True
  | sv :: l' =>
      prepare_err db log (fst sv) = None
      /\ exec_err db (log ++ [CPrepare (fst sv)]) (fst sv) (snd sv) = None
      /\ succeeds db (log ++ [CPrepare (fst sv); CExec (fst sv) (snd sv)]) l'
  end.

(** What the loop of [Insert] assembles at [i = 0 .. batchs-1]. *)
Definition batches (limit : Z) (b : Bulk V) (replaceOnDuplicate : bool)
  : list (option (string * list V)) :=
  let batchs := RoundUp (inject_Z (Go.len (vals b)) / inject_Z limit)%Q in
  match Go.div limit (valuesPerRow b) with
  | None => []
  | Some rowsPerBatch =>
      let charactersPerBatch :=
        Go.mul rowsPerBatch (Go.mul 2 (Go.add (valuesPerRow b) 1)) in
      map (fun k => assemble b replaceOnDuplicate batchs rowsPerBatch
                             charactersPerBatch (Z.of_nat k))
          (seq 0 (Z.to_nat batchs))
  end.

(** Preparing and executing assembled batches in order, up to the first
    panic or error. *)
Fixpoint runPlan (db : DB V E) (l : list (option (string * list V)))
  : M V E unit :=
  match l with
  | [] => ret tt
  | o :: l' =>
      bind (try o) (fun sv =>
      bind (db_Prepare db (fst sv)) (fun stmt =>
      bind (stmt_Exec db stmt (snd sv)) (fun _ =>
      runPlan db l')))
  end.

(** What ties the two buffers of a builder holding [N] rows. *)
Definition holds_rows (b : Bulk V) (N : nat) : Prop :=
  Go.len (vals b) = Z.of_nat N * valuesPerRow b
  /\ placeholderStr b = Go.rep (placeholderStrHelper b) N.

(** The clause a batch ends with: none without the upsert flag. *)
Definition clause (b : Bulk V) (replaceOnDuplicate : bool) (sep : string)
  : option string :=
  if replaceOnDuplicate then onDuplicate (initStr b) sep else Some EmptyString.

(** The batch plan in closed form, for a builder holding [N] rows:
    [batchCount] batches of [rowsPerBatch] rows, the last one with the
    rows that are left. *)
Definition batchCount (limit : Z) (b : Bulk V) : Z :=
  ceil_div (Go.len (vals b)) limit.

Definition rowsPerBatch (limit : Z) (b : Bulk V) : Z :=
  limit / valuesPerRow b.

Definition rowsIn (limit : Z) (b : Bulk V) (N : nat) (i : Z) : Z :=
  if i =? batchCount limit b - 1
  then Z.of_nat N - rowsPerBatch limit b * i
  else rowsPerBatch limit b.

Definition batchOf (limit : Z) (b : Bulk V) (N : nat)
    (replaceOnDuplicate : bool) (i : Z) : option (string * list V) :=
  option_map
    (fun e =>
       (trimLast (initStr b
                  ++ Go.rep (placeholderStrHelper b)
                            (Z.to_nat (rowsIn limit b N i))) ++ e,
        firstn (Z.to_nat (rowsIn limit b N i * valuesPerRow b))
               (skipn (Z.to_nat (rowsPerBatch limit b * valuesPerRow b * i))
                      (vals b))))
    (clause b replaceOnDuplicate ", ").

(** The batches of the closed form when the clause is [e]. *)
Definition planned (limit : Z) (b : Bulk V) (N : nat) (e : string)
  : list (string * list V) :=
  map (fun k : nat =>
         (trimLast (initStr b
                    ++ Go.rep (placeholderStrHelper b)
                              (Z.to_nat (rowsIn limit b N (Z.of_nat k)))) ++ e,
          firstn (Z.to_nat (rowsIn limit b N (Z.of_nat k) * valuesPerRow b))
                 (skipn (Z.to_nat (rowsPerBatch limit b * valuesPerRow b
                                   * Z.of_nat k))
                        (vals b))))
      (seq 0 (Z.to_nat (batchCount limit b))).

(** The builder after the trim of line 43. *)
Definition trimmed (b : Bulk V) : Bulk V :=
  mkBulk (initStr b) (trimLast (placeholderStr b)) (vals b) (rows b)
         (valuesPerRow b) (placeholderStrHelper b).

(** One batch handed to the driver after the calls [log]: the calls made
    and what [Insert] gets back. *)
Definition attempt (db : DB V E) (log : list (call V)) (text : string)
    (args : list V) : list (call V) * res E unit :=
  match prepare_err db log text with
  | Some err => ((log ++ [CPrepare text])%list, Err err)
  | None =>
      match exec_err db (log ++ [CPrepare text]) text args with
      | Some err => ((log ++ [CPrepare text; CExec text args])%list, Err err)
      | None => ((log ++ [CPrepare text; CExec text args])%list, Val tt)
      end
  end.

(** A driver that accepts every call. *)
Definition quiet : DB V E := mkDB (fun _ _ => None) (fun _ _ _ => None).

End Notions.

(** The separators of the upsert clause as the specification words them:
    [", "] on the single-statement branch and [","] on the batched one. *)
Module SpecSays.

Definition single_sep : string := ", ".
Definition batched_sep : string := ",".

End SpecSays.

(** ** Inputs of the examples *)

Module Ex.

(** Columns x and y, four rows. *)
Definition rows_xy4 : list (list Z) := [[1; 2]; [3; 4]; [5; 6]; [7; 8]].

Definition xy4 : Bulk Z :=
  mkBulk "INSERT INTO t(x, y) VALUES " "(?,?),(?,?),(?,?),(?,?),"
         [1; 2; 3; 4; 5; 6; 7; 8] 4 2 "(?,?),".

(** Columns x and y as [Init] returns them. *)
Definition xy0 : Bulk Z :=
  mkBulk "INSERT INTO t(x, y) VALUES " EmptyString [] 0 2 "(?,?),".

(** Columns x and y, six rows: three batches under a limit of 5. *)
Definition rows_xy6 : list (list Z) :=
  [[1; 2]; [3; 4]; [5; 6]; [7; 8]; [9; 10]; [11; 12]].

Definition xy6 : Bulk Z :=
  mkBulk "INSERT INTO t(x, y) VALUES " "(?,?),(?,?),(?,?),(?,?),(?,?),(?,?),"
         [1; 2; 3; 4; 5; 6; 7; 8; 9; 10; 11; 12] 6 2 "(?,?),".

(** Columns a and b, one row. *)
Definition ab1 : Bulk Z :=
  mkBulk "INSERT INTO t(a, b) VALUES " "(?,?)," [1; 2] 1 2 "(?,?),".

(** Columns a and b as [Init] returns them, and 30000 rows for them. *)
Definition ab0 : Bulk Z :=
  mkBulk "INSERT INTO t(a, b) VALUES " EmptyString [] 0 2 "(?,?),".

Definition rows_ab : list (list Z) := repeat [1; 2] (Z.to_nat 30000).

(** Column id, no row and one row. *)
Definition id0 : Bulk Z := mkBulk "INSERT INTO t(id) VALUES " EmptyString [] 0 1 "(?),".

Definition id1 : Bulk Z :=
  mkBulk "INSERT INTO t(id) VALUES " "(?)," [7] 1 1 "(?),".

(** More columns than the limit, one row. *)
Definition wide_cols : list string := repeat "c" (Z.to_nat 60001).

Definition wide_row : list Z := repeat 0 (Z.to_nat 60001).

Definition wide : Bulk Z :=
  match built "t" wide_cols [wide_row] with
  | Some b => b
  | None => zero
  end.

(** Seven columns, 25714 rows. *)
Definition cols7 : list string := ["a"; "b"; "c"; "d"; "e"; "f"; "g"].

Definition row7 : list Z := [1; 2; 3; 4; 5; 6; 7].

Definition rows7 : list (list Z) := repeat row7 (Z.to_nat 25714).

Definition seven0 : Bulk Z :=
  mkBulk "INSERT INTO t(a, b, c, d, e, f, g) VALUES " EmptyString [] 0 7
         "(?,?,?,?,?,?,?),".

(** The driver that accepts every call, on these values. *)
Definition ok : DB Z string := quiet.

(** A driver whose [k]-th call (from 0) fails with [e] when it is a
    Prepare. *)
Definition prepare_fails_at (k : nat) (e : string) : DB Z string :=
  mkDB (fun log _ => if Nat.eqb (List.length log) k then Some e else None)
       (fun _ _ _ => None).

(** A driver whose [k]-th call fails with [e] when it is an Exec. *)
Definition exec_fails_at (k : nat) (e : string) : DB Z string :=
  mkDB (fun _ _ => None)
       (fun log _ _ => if Nat.eqb (List.length log) k then Some e else None).

End Ex.

(** ** Notions of the further properties *)

(** [b'] is [b] but for its placeholder buffer. *)
Definition same_but_placeholders {V : Type} (b b' : Bulk V) : Prop :=
  initStr b' = initStr b /\ vals b' = vals b /\ rows b' = rows b
  /\ valuesPerRow b' = valuesPerRow b
  /\ placeholderStrHelper b' = placeholderStrHelper b.

(** The builder [b] with [r] as its row counter. *)
Definition with_rows {V : Type} (b : Bulk V) (r : Z) : Bulk V :=
  mkBulk (initStr b) (placeholderStr b) (vals b) r (valuesPerRow b)
         (placeholderStrHelper b).

(** The byte [c] occurs in [s]. *)
Fixpoint has_byte (c : ascii) (s : string) : bool :=
  match s with
  | EmptyString => false
  | String x s' => Ascii.eqb x c || has_byte c s'
  end.

(** Names the column list can be read back from the prefix with: a
    table name without parenthesis, a column name without closing
    parenthesis and without comma. *)
Definition plain_table (t : string) : Prop :=
  has_byte "(" t = false /\ has_byte ")" t = false.

Definition plain_column (c : string) : Prop :=
  has_byte ")" c = false /\ has_byte "," c = false.

(** The term of one column in the upsert clause, and the clause for a
    list of columns. *)
Definition upsert_term (c : string) : string := c ++ "=VALUES(" ++ c ++ ")".

Definition upsert_text (cols : list string) : string :=
  " ON DUPLICATE KEY UPDATE " ++ Go.Join (map upsert_term cols) ",".

(** The columns with a space before each but the first. *)
Definition respaced (cols : list string) : list string :=
  match cols with
  | [] => []
  | c :: r => c :: map (append " ") r
  end.

Module Ex2.

(** The builder of [Ex.id1] after a first [Insert]. *)
Definition id1_used : Bulk Z :=
  mkBulk "INSERT INTO t(id) VALUES " "(?)" [7] 1 1 "(?),".

(** Columns x and y, two rows. *)
Definition xy2 : Bulk Z :=
  mkBulk "INSERT INTO t(x, y) VALUES " "(?,?),(?,?)," [1; 2; 3; 4] 2 2
         "(?,?),".

(** What [Init] makes of [xy2] for the same columns. *)
Definition xy2_again : Bulk Z :=
  mkBulk "INSERT INTO t(x, y) VALUES " "(?,?),(?,?)," [] 0 2 "(?,?),".

End Ex2.

Example Split_ab : Go.Split "a, b" ", " = ["a"; "b"].
Proof. reflexivity. Qed.

Example Split_ab_comma : Go.Split "a, b" "," = ["a"; " b"].
Proof. reflexivity. Qed.

Example Split_empty : Go.Split EmptyString "," = [EmptyString].
Proof. reflexivity. Qed.

Example Index_paren : Go.Index "INSERT INTO t(a, b) VALUES " "(" = 13.
Proof. reflexivity. Qed.

Example Index_absent : Go.Index "abc" ")" = -1.
Proof. reflexivity. Qed.

Example Init_two :
  Init (V:=Z) zero "t" ["a"; "b"]
  = Some (mkBulk "INSERT INTO t(a, b) VALUES " EmptyString [] 0 2 "(?,?),").
Proof. reflexivity. Qed.

Example Init_none : Init (V:=Z) zero "t" [] = None.
Proof. reflexivity. Qed.

(** ** Facts on the Go primitives *)

Module GoFacts.

Lemma wrap_small (z : Z) : Go.int_min <= z <= Go.int_max -> Go.wrap z = z.
Proof.
  unfold Go.wrap, Go.int_min, Go.int_max. intros H.
  rewrite Z.mod_small; lia.
Qed.

Lemma length_append (a b : string) :
  String.length (a ++ b) = (String.length a + String.length b)%nat.
Proof. induction a as [|c a IH]; simpl; [reflexivity | now rewrite IH]. Qed.

Lemma slen_append (a b : string) : Go.slen (a ++ b) = Go.slen a + Go.slen b.
Proof. unfold Go.slen. rewrite length_append. lia. Qed.

Lemma append_assoc (a b c : string) : (a ++ b) ++ c = a ++ (b ++ c).
Proof. induction a as [|x a IH]; simpl; [reflexivity | now rewrite IH]. Qed.

Lemma append_nil_r (a : string) : a ++ EmptyString = a.
Proof. induction a as [|x a IH]; simpl; [reflexivity | now rewrite IH]. Qed.

Lemma length_rep (s : string) (n : nat) :
  String.length (Go.rep s n) = (n * String.length s)%nat.
Proof.
  induction n as [|n IH]; simpl; [reflexivity|].
  rewrite length_append, IH. reflexivity.
Qed.

Lemma rep_add (s : string) (n m : nat) :
  Go.rep s (n + m) = Go.rep s n ++ Go.rep s m.
Proof.
  induction n as [|n IH]; simpl; [reflexivity|].
  now rewrite IH, append_assoc.
Qed.

Lemma take_0 (s : string) : Go.take 0 s = EmptyString.
Proof. destruct s; reflexivity. Qed.

Lemma drop_0 (s : string) : Go.drop 0 s = s.
Proof. destruct s; reflexivity. Qed.

Lemma take_all (s : string) (n : nat) :
  (String.length s <= n)%nat -> Go.take n s = s.
Proof.
  revert n. induction s as [|c s IH]; intros [|n] H; simpl in *;
    try reflexivity; try lia.
  rewrite IH; [reflexivity | lia].
Qed.

Lemma take_app (a b : string) (k : nat) :
  Go.take (String.length a + k) (a ++ b) = a ++ Go.take k b.
Proof. induction a as [|c a IH]; simpl; [reflexivity | now rewrite IH]. Qed.

Lemma drop_app (a b : string) (k : nat) :
  Go.drop (String.length a + k) (a ++ b) = Go.drop k b.
Proof. induction a as [|c a IH]; simpl; [reflexivity | exact IH]. Qed.

Lemma take_app_l (a b : string) (k : nat) :
  (k <= String.length a)%nat -> Go.take k (a ++ b) = Go.take k a.
Proof.
  revert k. induction a as [|c a IH]; intros [|k] H; simpl in *;
    try reflexivity; try lia.
  rewrite IH; [reflexivity | lia].
Qed.

Lemma length_take (s : string) (k : nat) :
  String.length (Go.take k s) = Nat.min k (String.length s).
Proof.
  revert k. induction s as [|c s IH]; intros [|k]; simpl; try reflexivity.
  now rewrite IH.
Qed.

Lemma take_drop (s : string) (k : nat) : Go.take k s ++ Go.drop k s = s.
Proof.
  revert k. induction s as [|c s IH]; intros [|k]; simpl; try reflexivity.
  now rewrite IH.
Qed.

(** Cutting a repetition at a multiple of the width of its element. *)
Lemma drop_rep (s : string) (k n : nat) :
  (k <= n)%nat ->
  Go.drop (k * String.length s) (Go.rep s n) = Go.rep s (n - k).
Proof.
  intros H. replace n with (k + (n - k))%nat at 1 by lia.
  rewrite rep_add.
  replace (k * String.length s)%nat
    with (String.length (Go.rep s k) + 0)%nat by (rewrite length_rep; lia).
  rewrite drop_app. apply drop_0.
Qed.

Lemma take_rep (s : string) (k n : nat) :
  (k <= n)%nat ->
  Go.take (k * String.length s) (Go.rep s n) = Go.rep s k.
Proof.
  intros H. replace n with (k + (n - k))%nat at 1 by lia.
  rewrite rep_add.
  replace (k * String.length s)%nat
    with (String.length (Go.rep s k) + 0)%nat by (rewrite length_rep; lia).
  rewrite take_app, take_0. apply append_nil_r.
Qed.

Lemma slice_some (s : string) (lo hi : Z) :
  0 <= lo <= hi -> hi <= Go.slen s ->
  Go.slice s lo hi
  = Some (Go.take (Z.to_nat (hi - lo)) (Go.drop (Z.to_nat lo) s)).
Proof.
  intros H1 H2. unfold Go.slice.
  replace (0 <=? lo) with true by (symmetry; apply Z.leb_le; lia).
  replace (lo <=? hi) with true by (symmetry; apply Z.leb_le; lia).
  replace (hi <=? Go.slen s) with true by (symmetry; apply Z.leb_le; lia).
  reflexivity.
Qed.

Lemma slice_none (s : string) (lo hi : Z) :
  lo < 0 \/ hi < lo \/ Go.slen s < hi -> Go.slice s lo hi = None.
Proof.
  intros H. unfold Go.slice.
  destruct (0 <=? lo) eqn:A; [|reflexivity].
  destruct (lo <=? hi) eqn:B; [|reflexivity].
  destruct (hi <=? Go.slen s) eqn:C; [|reflexivity].
  apply Z.leb_le in A, B, C. lia.
Qed.

Lemma vslice_some {A : Type} (l : list A) (lo hi : Z) :
  0 <= lo <= hi -> hi <= Go.len l ->
  Go.vslice l lo hi
  = Some (firstn (Z.to_nat (hi - lo)) (skipn (Z.to_nat lo) l)).
Proof.
  intros H1 H2. unfold Go.vslice.
  replace (0 <=? lo) with true by (symmetry; apply Z.leb_le; lia).
  replace (lo <=? hi) with true by (symmetry; apply Z.leb_le; lia).
  replace (hi <=? Go.len l) with true by (symmetry; apply Z.leb_le; lia).
  reflexivity.
Qed.

(** Trimming the last byte of a non-empty string never panics. *)
Lemma slice_trim (s : string) :
  s <> EmptyString -> Go.slen s <= Go.int_max ->
  Go.slice s 0 (Go.sub (Go.slen s) 1) = Some (trimLast s).
Proof.
  intros Hne Hmax.
  assert (1 <= Go.slen s) by (destruct s; [congruence | unfold Go.slen; simpl; lia]).
  unfold Go.sub. rewrite wrap_small by (unfold Go.int_min, Go.int_max in *; lia).
  rewrite slice_some by lia. rewrite drop_0. unfold trimLast.
  f_equal. f_equal. unfold Go.slen. lia.
Qed.

Lemma slice_trim_empty : Go.slice EmptyString 0 (Go.sub (Go.slen EmptyString) 1) = None.
Proof. reflexivity. Qed.

Lemma trimLast_app (a b : string) (c : ascii) :
  trimLast (a ++ b ++ String c EmptyString) = a ++ b.
Proof.
  unfold trimLast. rewrite <- append_assoc.
  rewrite length_append. simpl.
  replace (String.length (a ++ b) + 1 - 1)%nat
    with (String.length (a ++ b) + 0)%nat by lia.
  rewrite take_app, take_0. apply append_nil_r.
Qed.

(** The ceiling computed by [RoundUp] on a quotient of two ints. *)
Lemma RoundUp_div (n d : Z) :
  0 < d -> RoundUp (inject_Z n / inject_Z d)%Q = ceil_div n d.
Proof.
  intros Hd. unfold RoundUp, Qceiling, Qfloor, ceil_div.
  destruct d as [|p|p]; try lia.
  unfold Qdiv, Qinv, inject_Z, Qmult, Qopp. simpl.
  rewrite Z.mul_1_r.
  pose proof (Z.div_mod (- n) (Z.pos p) ltac:(lia)).
  pose proof (Z.mod_pos_bound (- n) (Z.pos p) ltac:(lia)).
  pose proof (Z.div_mod (n + Z.pos p - 1) (Z.pos p) ltac:(lia)).
  pose proof (Z.mod_pos_bound (n + Z.pos p - 1) (Z.pos p) ltac:(lia)).
  nia.
Qed.

Lemma ceil_div_bounds (n d : Z) :
  0 < d -> (ceil_div n d - 1) * d < n <= ceil_div n d * d.
Proof.
  intros Hd. unfold ceil_div.
  pose proof (Z.div_mod (n + d - 1) d ltac:(lia)).
  pose proof (Z.mod_pos_bound (n + d - 1) d ltac:(lia)).
  nia.
Qed.

End GoFacts.

(** ** Accumulating rows *)

Section Accumulation.

Context {V : Type}.
Implicit Types (b : Bulk V) (vs : list V) (rs : list (list V)).

Lemma PrepareValues_reject b vs :
  Go.len vs <> valuesPerRow b ->
  PrepareValues b vs = (b, Some (arity_error (Go.len vs) (valuesPerRow b))).
Proof.
  intros H. unfold PrepareValues.
  destruct (Go.len vs =? valuesPerRow b) eqn:Q; [|reflexivity].
  apply Z.eqb_eq in Q. contradiction.
Qed.

Lemma PrepareValues_accept b vs :
  Go.len vs = valuesPerRow b ->
  PrepareValues b vs
  = (mkBulk (initStr b) (placeholderStr b ++ placeholderStrHelper b)
            (vals b ++ vs)%list (Go.add (rows b) 1) (valuesPerRow b)
            (placeholderStrHelper b), None).
Proof.
  intros H. unfold PrepareValues.
  apply Z.eqb_eq in H. now rewrite H.
Qed.

Lemma rep_snoc (s : string) (n : nat) : Go.rep s n ++ s = Go.rep s (S n).
Proof.
  replace (S n) with (n + 1)%nat by lia.
  rewrite GoFacts.rep_add. simpl. now rewrite GoFacts.append_nil_r.
Qed.

Lemma holds_rows_step b vs N :
  holds_rows b N ->
  holds_rows (fst (PrepareValues b vs))
             (if Go.len vs =? valuesPerRow b then S N else N).
Proof.
  intros [Hv Hp].
  destruct (Go.len vs =? valuesPerRow b) eqn:Q.
  - apply Z.eqb_eq in Q. rewrite (PrepareValues_accept _ _ Q).
    split; cbn [fst vals placeholderStr placeholderStrHelper valuesPerRow].
    + unfold Go.len in *. rewrite length_app. lia.
    + rewrite Hp. apply rep_snoc.
  - apply Z.eqb_neq in Q. rewrite (PrepareValues_reject _ _ Q).
    now split.
Qed.

Lemma PrepareValues_fixed b vs :
  let b' := fst (PrepareValues b vs) in
  initStr b' = initStr b /\ valuesPerRow b' = valuesPerRow b
  /\ placeholderStrHelper b' = placeholderStrHelper b.
Proof.
  unfold PrepareValues.
  destruct (Go.len vs =? valuesPerRow b); simpl; auto.
Qed.

Lemma accumulate_fixed b rs :
  initStr (accumulate b rs) = initStr b
  /\ valuesPerRow (accumulate b rs) = valuesPerRow b
  /\ placeholderStrHelper (accumulate b rs) = placeholderStrHelper b.
Proof.
  revert b. induction rs as [|r rs IH]; intros b; simpl; [auto|].
  destruct (IH (fst (PrepareValues b r))) as (A & B & C).
  destruct (PrepareValues_fixed b r) as (A' & B' & C').
  unfold accumulate in *. simpl. rewrite A, B, C. auto.
Qed.

Lemma accumulate_holds b rs N :
  holds_rows b N ->
  holds_rows (accumulate b rs) (N + List.length (accepted b rs)).
Proof.
  revert b N. induction rs as [|r rs IH]; intros b N H; simpl.
  - now rewrite Nat.add_0_r.
  - pose proof (holds_rows_step b r N H) as Hs.
    destruct (PrepareValues_fixed b r) as (_ & Hc & _).
    apply IH in Hs. unfold accumulate in *. simpl.
    unfold accepted in *. rewrite Hc in Hs.
    destruct (Go.len r =? valuesPerRow b); simpl.
    + rewrite Nat.add_succ_r. exact Hs.
    + exact Hs.
Qed.

Lemma accumulate_vals b rs :
  vals (accumulate b rs) = (vals b ++ List.concat (accepted b rs))%list.
Proof.
  revert b. induction rs as [|r rs IH]; intros b; simpl.
  - now rewrite app_nil_r.
  - unfold accumulate in *. simpl. rewrite IH.
    destruct (PrepareValues_fixed b r) as (_ & Hc & _).
    unfold accepted. rewrite Hc. unfold PrepareValues.
    destruct (Go.len r =? valuesPerRow b); simpl; [|reflexivity].
    now rewrite <- app_assoc.
Qed.

(** [Init] on the zero value. *)
Lemma Init_zero_fields t cols b0 :
  Init (V:=V) zero t cols = Some b0 ->
  initStr b0 = "INSERT INTO " ++ t ++ "(" ++ Go.Join cols ", " ++ ") VALUES "
  /\ placeholderStr b0 = EmptyString /\ vals b0 = [] /\ rows b0 = 0
  /\ valuesPerRow b0 = Go.len cols.
Proof.
  unfold Init. destruct (Go.Repeat ",?" (Go.sub (Go.len cols) 1)); [|discriminate].
  intros H. injection H as <-. simpl. auto.
Qed.

Lemma Init_helper t cols b0 :
  Go.len cols <= Go.int_max ->
  Init (V:=V) zero t cols = Some b0 ->
  1 <= valuesPerRow b0
  /\ placeholderStrHelper b0
     = "(?" ++ Go.rep ",?" (Z.to_nat (valuesPerRow b0 - 1)) ++ "),".
Proof.
  intros Hmax. unfold Init, Go.Repeat, Go.sub.
  assert (0 <= Go.len cols) by (unfold Go.len; lia).
  rewrite GoFacts.wrap_small by (unfold Go.int_min, Go.int_max in *; lia).
  destruct (Go.len cols - 1 <? 0) eqn:Q; [discriminate|].
  apply Z.ltb_ge in Q. intros H1. injection H1 as <-. simpl. split; [lia|reflexivity].
Qed.

Lemma Init_none_iff t cols :
  Go.len cols <= Go.int_max ->
  (Init (V:=V) zero t cols = None <-> cols = []).
Proof.
  intros Hmax. split.
  - destruct cols as [|c cols]; [reflexivity|]. intros H. exfalso.
    assert (1 <= Go.len (c :: cols))
      by (unfold Go.len; cbn [List.length]; lia).
    revert H. unfold Init, Go.Repeat, Go.sub.
    rewrite GoFacts.wrap_small by (unfold Go.int_min, Go.int_max in *; lia).
    destruct (Go.len (c :: cols) - 1 <? 0) eqn:Q; [|discriminate].
    apply Z.ltb_lt in Q. lia.
  - intros ->. reflexivity.
Qed.

End Accumulation.

(** ** The loop of Insert and the batches it runs *)

Section Loop.

Context {V E : Type}.
Implicit Types (b : Bulk V) (db : DB V E) (log : list (call V)).

Lemma bind_ext {A B : Type} (m : M V E A) (k1 k2 : A -> M V E B) st :
  (forall a st', k1 a st' = k2 a st') -> bind m k1 st = bind m k2 st.
Proof.
  intros H. unfold bind. destruct (m st) as [st' [a|e|]]; auto.
Qed.

Lemma batchLoop_runPlan db b rod batchs rpb cpb (n : nat) :
  batchs <= Go.int_max ->
  forall (i : Z) st,
    0 <= i -> i + Z.of_nat n <= batchs ->
    batchLoop db b rod batchs rpb cpb n i st
    = runPlan db (map (fun k => assemble b rod batchs rpb cpb (i + Z.of_nat k))
                      (seq 0 n)) st.
Proof.
  intros Hmax. induction n as [|n IH]; intros i st Hi Hn; [reflexivity|].
  cbn [batchLoop].
  replace (i <? batchs) with true by (symmetry; apply Z.ltb_lt; lia).
  cbn [seq map runPlan]. rewrite <- seq_shift, map_map.
  replace (i + Z.of_nat 0) with i by lia.
  apply bind_ext. intros sv st1.
  apply bind_ext. intros stmt st2.
  apply bind_ext. intros _ st3.
  unfold Go.add.
  rewrite GoFacts.wrap_small by (unfold Go.int_min, Go.int_max in *; lia).
  rewrite IH by lia. f_equal. apply map_ext. intros k. f_equal. lia.
Qed.

(** The loop leaves through its test, not for want of iterations: with
    [Z.to_nat (batchs - i)] of them or more the result is the same. *)
Lemma batchLoop_fuel db b rod batchs rpb cpb (n : nat) :
  batchs <= Go.int_max ->
  forall (i : Z) st,
    0 <= i -> (Z.to_nat (batchs - i) <= n)%nat ->
    batchLoop db b rod batchs rpb cpb n i st
    = batchLoop db b rod batchs rpb cpb (Z.to_nat (batchs - i)) i st.
Proof.
  intros Hmax. induction n as [|n IH]; intros i st Hi Hn.
  - now replace (Z.to_nat (batchs - i)) with 0%nat by lia.
  - destruct (i <? batchs) eqn:Q.
    + apply Z.ltb_lt in Q.
      replace (Z.to_nat (batchs - i)) with (S (Z.to_nat (batchs - (i + 1))))
        by lia.
      cbn [batchLoop]. replace (i <? batchs) with true
        by (symmetry; apply Z.ltb_lt; lia).
      apply bind_ext. intros sv st1.
      apply bind_ext. intros stmt st2.
      apply bind_ext. intros _ st3.
      unfold Go.add.
      rewrite GoFacts.wrap_small by (unfold Go.int_min, Go.int_max in *; lia).
      apply IH; lia.
    + apply Z.ltb_ge in Q.
      replace (Z.to_nat (batchs - i)) with 0%nat by lia.
      cbn [batchLoop]. replace (i <? batchs) with false
        by (symmetry; apply Z.ltb_ge; lia).
      reflexivity.
Qed.

Lemma ceil_div_le (n d : Z) : 0 < d -> 0 <= n -> 0 <= ceil_div n d <= n.
Proof.
  intros Hd Hn. pose proof (GoFacts.ceil_div_bounds n d Hd). nia.
Qed.

(** The batched branch runs the batches of the plan in order. *)
Lemma insertBatches_runPlan limit db b rod log :
  0 < limit -> Go.len (vals b) <= Go.int_max -> valuesPerRow b <> 0 ->
  insertBatches limit db rod (b, log)
  = runPlan db (batches limit b rod) (b, log).
Proof.
  intros Hl Hmax Hc. unfold insertBatches, batches.
  unfold bind at 1. cbn [get fst].
  unfold Go.div. destruct (valuesPerRow b =? 0) eqn:Q;
    [apply Z.eqb_eq in Q; contradiction|].
  unfold bind at 1. cbn [try].
  rewrite GoFacts.RoundUp_div by assumption.
  assert (0 <= Go.len (vals b)) by (unfold Go.len; lia).
  pose proof (ceil_div_le (Go.len (vals b)) limit Hl ltac:(assumption)).
  rewrite batchLoop_runPlan by lia.
  f_equal.
Qed.

Lemma InsertWith_batched limit db b rod :
  0 < limit -> limit <= Go.len (vals b) <= Go.int_max ->
  valuesPerRow b <> 0 ->
  run (InsertWith limit db rod) b = runPlan db (batches limit b rod) (b, []).
Proof.
  intros Hl Hn Hc. unfold run, InsertWith. unfold bind at 1. cbn [get fst].
  replace (Go.len (vals b) <? limit) with false
    by (symmetry; apply Z.ltb_ge; lia).
  apply insertBatches_runPlan; lia.
Qed.

Lemma runPlan_app_some db pre l b log :
  succeeds db log pre ->
  runPlan db (map Some pre ++ l) (b, log)
  = runPlan db l (b, (log ++ calls pre)%list).
Proof.
  revert log. induction pre as [|sv pre IH]; intros log H.
  - cbn. now rewrite app_nil_r.
  - destruct H as (Hp & He & Hs).
    cbn [map app runPlan]. unfold bind at 1. cbn [try].
    unfold bind at 1. unfold db_Prepare at 1. cbn [fst snd]. rewrite Hp.
    unfold bind at 1. unfold stmt_Exec at 1. cbn [fst snd]. rewrite He.
    rewrite <- app_assoc. cbn [app]. rewrite IH by exact Hs.
    cbn [calls flat_map]. rewrite <- app_assoc. reflexivity.
Qed.

Lemma runPlan_all db l b log :
  succeeds db log l ->
  runPlan db (map Some l) (b, log) = ((b, (log ++ calls l)%list), Val tt).
Proof.
  intros H. rewrite <- (app_nil_r (map Some l)).
  now rewrite runPlan_app_some.
Qed.

Lemma always_ok_succeeds db log l : always_ok db -> succeeds db log l.
Proof.
  intros [Hp He]. revert log. induction l as [|sv l IH]; intros log; cbn; auto.
Qed.

Lemma runPlan_prepare_fails db pre t v rest b log e :
  succeeds db log pre ->
  prepare_err db (log ++ calls pre)%list t = Some e ->
  runPlan db (map Some pre ++ Some (t, v) :: rest) (b, log)
  = ((b, (log ++ calls pre ++ [CPrepare t])%list), Err e).
Proof.
  intros Hs Hp. rewrite runPlan_app_some by exact Hs.
  cbn [runPlan]. unfold bind at 1. cbn [try].
  unfold bind at 1. unfold db_Prepare at 1. cbn [fst snd]. rewrite Hp.
  now rewrite <- app_assoc.
Qed.

Lemma runPlan_exec_fails db pre t v rest b log e :
  succeeds db log pre ->
  prepare_err db (log ++ calls pre)%list t = None ->
  exec_err db (log ++ calls pre ++ [CPrepare t])%list t v = Some e ->
  runPlan db (map Some pre ++ Some (t, v) :: rest) (b, log)
  = ((b, (log ++ calls pre ++ [CPrepare t; CExec t v])%list), Err e).
Proof.
  intros Hs Hp He. rewrite runPlan_app_some by exact Hs.
  cbn [runPlan]. unfold bind at 1. cbn [try].
  unfold bind at 1. unfold db_Prepare at 1. cbn [fst snd]. rewrite Hp.
  unfold bind at 1. unfold stmt_Exec at 1. cbn [fst snd].
  rewrite <- !app_assoc. rewrite He. reflexivity.
Qed.

End Loop.

(** ** Cutting a list into consecutive chunks *)

Section Chunks.

Context {A : Type}.

Lemma firstn_add (l : list A) (n m : nat) :
  firstn (n + m) l = (firstn n l ++ firstn m (skipn n l))%list.
Proof.
  revert l. induction n as [|n IH]; intros [|x l]; cbn; try reflexivity.
  - now rewrite firstn_nil.
  - now rewrite IH.
Qed.

Lemma chunks_concat (l : list A) (w m : nat) :
  List.concat (map (fun k => firstn w (skipn (k * w) l)) (seq 0 m))
  = firstn (m * w) l.
Proof.
  induction m as [|m IH]; [reflexivity|].
  rewrite seq_S, map_app, concat_app, IH. cbn [map List.concat Nat.add].
  rewrite app_nil_r. rewrite <- firstn_add. f_equal. lia.
Qed.

End Chunks.

(** ** The batches of a builder that holds N rows *)

Section Plan.

Context {V : Type}.
Variables (b : Bulk V) (N : nat) (limit : Z).

Hypothesis Hc : 1 <= valuesPerRow b.
Hypothesis Hw :
  Go.slen (placeholderStrHelper b) = 2 * (valuesPerRow b + 1).
Hypothesis Hrows : holds_rows b N.
Hypothesis Hinit : initStr b <> EmptyString.
Hypothesis Hmem :
  Go.slen (initStr b) + Go.slen (placeholderStr b) <= Go.int_max.
Hypothesis Hlim : 0 < limit /\ 4 * limit <= Go.int_max.
Hypothesis Hn : limit <= Go.len (vals b).

Let c := valuesPerRow b.
Let K := batchCount limit b.
Let rpb := rowsPerBatch limit b.
Let h := placeholderStrHelper b.

Lemma plan_len_vals : Go.len (vals b) = Z.of_nat N * c.
Proof. exact (proj1 Hrows). Qed.

Lemma plan_slen_ph : Go.slen (placeholderStr b) = Z.of_nat N * (2 * (c + 1)).
Proof.
  destruct Hrows as [_ ->]. unfold Go.slen in *.
  rewrite GoFacts.length_rep, Nat2Z.inj_mul. fold h. subst c. rewrite <- Hw.
  reflexivity.
Qed.

Lemma plan_rpb : 0 <= rpb /\ rpb * c <= limit /\ limit < (rpb + 1) * c.
Proof.
  subst rpb c. unfold rowsPerBatch.
  pose proof (Z.div_mod limit (valuesPerRow b) ltac:(lia)).
  pose proof (Z.mod_pos_bound limit (valuesPerRow b) ltac:(lia)).
  pose proof (Z.div_pos limit (valuesPerRow b) ltac:(lia) ltac:(lia)).
  nia.
Qed.

Lemma plan_K : 1 <= K /\ (K - 1) * limit < Z.of_nat N * c <= K * limit.
Proof.
  subst K. unfold batchCount. rewrite plan_len_vals.
  pose proof (GoFacts.ceil_div_bounds (Z.of_nat N * c) limit ltac:(lia)).
  pose proof plan_len_vals. split; [|assumption]. nia.
Qed.

(** Every batch before the last is full, and rows are left for the last:
    the offsets of the loop never leave the buffers. *)
Lemma plan_rows_left : rpb * (K - 1) < Z.of_nat N.
Proof.
  pose proof plan_rpb. pose proof plan_K.
  assert (rpb * c * (K - 1) <= limit * (K - 1)) by nia.
  subst c. nia.
Qed.

Lemma plan_mem : Z.of_nat N * (2 * (c + 1)) <= Go.int_max.
Proof.
  rewrite <- plan_slen_ph. pose proof Hmem.
  assert (0 <= Go.slen (initStr b)) by (unfold Go.slen; lia). lia.
Qed.

Lemma slice_rep (s : string) (n : nat) (lo cnt : Z) :
  0 <= lo -> 0 <= cnt -> lo + cnt <= Z.of_nat n ->
  Go.take (Z.to_nat (cnt * Go.slen s))
          (Go.drop (Z.to_nat (lo * Go.slen s)) (Go.rep s n))
  = Go.rep s (Z.to_nat cnt).
Proof.
  intros Hlo Hcnt Hle. unfold Go.slen.
  rewrite !Z2Nat.inj_mul, !Nat2Z.id by lia.
  rewrite GoFacts.drop_rep by lia.
  apply GoFacts.take_rep. lia.
Qed.

Lemma append_nonempty (x y : string) : x <> EmptyString -> x ++ y <> EmptyString.
Proof. destruct x; [congruence | discriminate]. Qed.

Lemma rowsIn_bounds (i : Z) :
  0 <= i < K ->
  0 <= rowsIn limit b N i /\ rpb * i + rowsIn limit b N i <= Z.of_nat N.
Proof.
  intros Hi. pose proof plan_rpb. pose proof plan_rows_left.
  unfold rowsIn. fold K rpb.
  destruct (i =? K - 1) eqn:Q.
  - apply Z.eqb_eq in Q. subst i. lia.
  - apply Z.eqb_neq in Q. nia.
Qed.

(** What the body of the loop assembles at a valid index. *)
Lemma assemble_shape (rod : bool) (i : Z) :
  0 <= i < K ->
  assemble b rod K rpb (rpb * (2 * (c + 1))) i = batchOf limit b N rod i.
Proof.
  intros Hi.
  pose proof plan_rpb as Hr. pose proof plan_K as HK.
  pose proof plan_rows_left as Hleft. pose proof plan_mem as Hm.
  pose proof plan_len_vals as Hlv. pose proof plan_slen_ph as Hlp.
  pose proof (rowsIn_bounds i Hi) as Hri.
  assert (HN : 0 <= Z.of_nat N) by lia.
  assert (Hi' : rpb * i < Z.of_nat N) by nia.
  assert (B1 : 0 <= rpb * (2 * (c + 1)) * i <= Z.of_nat N * (2 * (c + 1)))
    by (subst c; nia).
  assert (B2 : 0 <= rpb * c * i <= Z.of_nat N * c) by (subst c; nia).
  assert (B3 : 0 <= rpb * c <= limit) by lia.
  assert (Hmax : Go.int_max = 2 ^ 63 - 1) by reflexivity.
  assert (Hmin : Go.int_min = - 2 ^ 63) by reflexivity.
  unfold assemble, batchOf. fold c.
  unfold Go.sub, Go.mul, Go.add.
  rewrite (GoFacts.wrap_small (K - 1)) by (subst c; nia).
  rewrite (GoFacts.wrap_small (rpb * c)) by lia.
  rewrite (GoFacts.wrap_small (rpb * (2 * (c + 1)) * i)) by lia.
  rewrite (GoFacts.wrap_small (rpb * c * i)) by (subst c; nia).
  assert (Hcut :
    (if i =? K - 1
     then match Go.slice_from (placeholderStr b) (rpb * (2 * (c + 1)) * i),
                Go.vslice_from (vals b) (rpb * c * i) with
          | Some p, Some vs => Some (initStr b ++ p, vs)
          | _, _ => None
          end
     else match Go.slice (placeholderStr b) (rpb * (2 * (c + 1)) * i)
                  (Go.wrap (rpb * (2 * (c + 1)) * Go.wrap (i + 1))),
                Go.vslice (vals b) (rpb * c * i)
                  (Go.wrap (rpb * c * Go.wrap (i + 1))) with
          | Some p, Some vs => Some (initStr b ++ p, vs)
          | _, _ => None
          end)
    = Some (initStr b ++ Go.rep h (Z.to_nat (rowsIn limit b N i)),
            firstn (Z.to_nat (rowsIn limit b N i * c))
                   (skipn (Z.to_nat (rpb * c * i)) (vals b)))).
  { unfold rowsIn in *. fold K rpb in Hri |- *.
    destruct (i =? K - 1) eqn:Q.
    - unfold Go.slice_from, Go.vslice_from.
      rewrite GoFacts.slice_some by lia.
      rewrite GoFacts.vslice_some by lia.
      f_equal. f_equal.
      + rewrite Hlp. destruct Hrows as [_ Hp]. rewrite Hp. fold h.
        replace (Z.of_nat N * (2 * (c + 1)) - rpb * (2 * (c + 1)) * i)
          with ((Z.of_nat N - rpb * i) * Go.slen h)
          by (subst h c; rewrite Hw; ring).
        replace (rpb * (2 * (c + 1)) * i) with ((rpb * i) * Go.slen h)
          by (subst h c; rewrite Hw; ring).
        f_equal. apply slice_rep; lia.
      + f_equal. f_equal. rewrite Hlv. ring.
    - apply Z.eqb_neq in Q.
      assert (Hnext : rpb * (i + 1) <= Z.of_nat N) by nia.
      assert (Hc1 : 1 <= c) by exact Hc.
      assert (C1 : rpb * (2 * (c + 1)) * (i + 1)
                   <= Z.of_nat N * (2 * (c + 1))).
      { replace (rpb * (2 * (c + 1)) * (i + 1))
          with (rpb * (i + 1) * (2 * (c + 1))) by ring.
        apply Z.mul_le_mono_nonneg_r; lia. }
      assert (C2 : rpb * c * (i + 1) <= Z.of_nat N * c).
      { replace (rpb * c * (i + 1)) with (rpb * (i + 1) * c) by ring.
        apply Z.mul_le_mono_nonneg_r; lia. }
      assert (C3 : rpb * (2 * (c + 1)) * i <= rpb * (2 * (c + 1)) * (i + 1)).
      { apply Z.mul_le_mono_nonneg_l; [apply Z.mul_nonneg_nonneg|]; lia. }
      assert (C4 : rpb * c * i <= rpb * c * (i + 1)).
      { apply Z.mul_le_mono_nonneg_l; [apply Z.mul_nonneg_nonneg|]; lia. }
      assert (C5 : i + 1 <= Z.of_nat N * (2 * (c + 1))) by nia.
      rewrite (GoFacts.wrap_small (i + 1)) by lia.
      rewrite (GoFacts.wrap_small (rpb * (2 * (c + 1)) * (i + 1))) by lia.
      rewrite (GoFacts.wrap_small (rpb * c * (i + 1))) by lia.
      rewrite GoFacts.slice_some by lia.
      rewrite GoFacts.vslice_some by lia.
      f_equal. f_equal.
      + destruct Hrows as [_ Hp]. rewrite Hp. fold h.
        replace (rpb * (2 * (c + 1)) * (i + 1) - rpb * (2 * (c + 1)) * i)
          with (rpb * Go.slen h) by (subst h c; rewrite Hw; ring).
        replace (rpb * (2 * (c + 1)) * i) with ((rpb * i) * Go.slen h)
          by (subst h c; rewrite Hw; ring).
        f_equal. apply slice_rep; lia.
      + f_equal. f_equal. ring. }
  rewrite Hcut. clear Hcut.
  rewrite GoFacts.slice_trim.
  - unfold clause. destruct rod; cbn [option_map].
    + destruct (onDuplicate (initStr b) ", "); reflexivity.
    + now rewrite GoFacts.append_nil_r.
  - apply append_nonempty, Hinit.
  - rewrite GoFacts.slen_append. unfold Go.slen at 2.
    rewrite GoFacts.length_rep, Nat2Z.inj_mul, Z2Nat.id by lia.
    fold (Go.slen h). subst h. rewrite Hw. fold c.
    rewrite Hlp in Hmem.
    assert (rowsIn limit b N i * (2 * (c + 1)) <= Z.of_nat N * (2 * (c + 1)))
      by (apply Z.mul_le_mono_nonneg_r; [subst c|]; lia).
    lia.
Qed.

(** The batches of [Insert], in closed form. *)
Lemma batches_shape (rod : bool) :
  batches limit b rod
  = map (fun k => batchOf limit b N rod (Z.of_nat k)) (seq 0 (Z.to_nat K)).
Proof.
  pose proof plan_rpb as Hr. pose proof plan_K as HK.
  pose proof plan_mem as Hm.
  assert (Hmax : Go.int_max = 2 ^ 63 - 1) by reflexivity.
  assert (Hmin : Go.int_min = - 2 ^ 63) by reflexivity.
  assert (HN : 1 <= Z.of_nat N) by (subst c; nia).
  unfold batches. rewrite GoFacts.RoundUp_div by lia.
  fold (batchCount limit b). fold K.
  unfold Go.div. replace (valuesPerRow b =? 0) with false
    by (symmetry; apply Z.eqb_neq; lia).
  rewrite Z.quot_div_nonneg by lia.
  fold (rowsPerBatch limit b). fold rpb. fold c.
  rewrite (GoFacts.wrap_small rpb) by lia.
  unfold Go.mul, Go.add.
  rewrite (GoFacts.wrap_small (c + 1)) by nia.
  rewrite (GoFacts.wrap_small (2 * (c + 1))) by nia.
  rewrite (GoFacts.wrap_small (rpb * (2 * (c + 1)))) by nia.
  apply map_ext_in. intros k Hk. apply in_seq in Hk.
  apply assemble_shape. lia.
Qed.

Lemma plan_len_max : Go.len (vals b) <= Go.int_max.
Proof.
  pose proof plan_mem. rewrite plan_len_vals. subst c. nia.
Qed.

Lemma to_nat_mul_nat (a : Z) (k : nat) :
  0 <= a -> Z.to_nat (a * Z.of_nat k) = (k * Z.to_nat a)%nat.
Proof. intros Ha. rewrite Z2Nat.inj_mul, Nat2Z.id by lia. lia. Qed.

(** The values of a batch, as the closed form cuts them. *)
Lemma plan_vals_nonlast (k : nat) :
  Z.of_nat k < K - 1 ->
  firstn (Z.to_nat (rowsIn limit b N (Z.of_nat k) * c))
         (skipn (Z.to_nat (rpb * c * Z.of_nat k)) (vals b))
  = firstn (Z.to_nat (rpb * c)) (skipn (k * Z.to_nat (rpb * c)) (vals b)).
Proof.
  intros Hk. pose proof plan_rpb as Hr.
  assert (Hc1 : 1 <= c) by exact Hc.
  unfold rowsIn. fold K rpb.
  replace (Z.of_nat k =? K - 1) with false by (symmetry; apply Z.eqb_neq; lia).
  f_equal. f_equal. apply to_nat_mul_nat. lia.
Qed.

Lemma plan_vals_last (k : nat) :
  Z.of_nat k = K - 1 ->
  firstn (Z.to_nat (rowsIn limit b N (Z.of_nat k) * c))
         (skipn (Z.to_nat (rpb * c * Z.of_nat k)) (vals b))
  = skipn (k * Z.to_nat (rpb * c)) (vals b).
Proof.
  intros Hk. pose proof plan_rpb as Hr. pose proof plan_rows_left as Hleft.
  pose proof plan_len_vals as Hlv.
  assert (Hc1 : 1 <= c) by exact Hc.
  unfold rowsIn. fold K rpb.
  replace (Z.of_nat k =? K - 1) with true by (symmetry; apply Z.eqb_eq; lia).
  rewrite to_nat_mul_nat by lia.
  apply firstn_all2. rewrite length_skipn.
  unfold Go.len in Hlv.
  assert (Z.of_nat (k * Z.to_nat (rpb * c)) = rpb * Z.of_nat k * c)
    by (rewrite Nat2Z.inj_mul, Z2Nat.id by lia; ring).
  assert (rpb * Z.of_nat k * c <= Z.of_nat N * c)
    by (apply Z.mul_le_mono_nonneg_r; [lia|]; rewrite Hk; lia).
  assert (Z.of_nat (List.length (vals b) - k * Z.to_nat (rpb * c))
          = (Z.of_nat N - rpb * Z.of_nat k) * c)
    by (rewrite Nat2Z.inj_sub by lia; lia).
  apply Nat2Z.inj_le. rewrite Z2Nat.id by (apply Z.mul_nonneg_nonneg; lia).
  lia.
Qed.

(** The value slices of the batches, put end to end, are the values. *)
Lemma plan_concat :
  List.concat
    (map (fun k => firstn (Z.to_nat (rowsIn limit b N (Z.of_nat k) * c))
                          (skipn (Z.to_nat (rpb * c * Z.of_nat k)) (vals b)))
         (seq 0 (Z.to_nat K)))
  = vals b.
Proof.
  pose proof plan_K as HK.
  destruct (Z.to_nat K) as [|m] eqn:Em; [lia|].
  rewrite seq_S, map_app, concat_app. cbn [map List.concat Nat.add].
  rewrite app_nil_r, plan_vals_last by lia.
  rewrite (map_ext_in _ (fun k => firstn (Z.to_nat (rpb * c))
                          (skipn (k * Z.to_nat (rpb * c)) (vals b)))).
  - rewrite chunks_concat. apply firstn_skipn.
  - intros k Hk. apply in_seq in Hk. apply plan_vals_nonlast. lia.
Qed.

End Plan.

(** ** Builders as callers get them *)

Section Built.

Context {V : Type}.
Implicit Types (b : Bulk V) (rs : list (list V)).

Lemma built_inv t cols rs b :
  built t cols rs = Some b ->
  exists b0,
    Init zero t cols = Some b0 /\ b = accumulate b0 rs
    /\ initStr b = initStr b0 /\ valuesPerRow b = valuesPerRow b0
    /\ placeholderStrHelper b = placeholderStrHelper b0
    /\ accepted b rs = accepted b0 rs.
Proof.
  unfold built. destruct (Init zero t cols) as [b0|] eqn:HI; [|discriminate].
  cbn [option_map]. intros H. injection H as <-.
  destruct (accumulate_fixed b0 rs) as (A & B & C).
  exists b0. repeat split; auto. unfold accepted. now rewrite B.
Qed.

Lemma built_shape t cols rs b :
  built t cols rs = Some b ->
  initStr b = "INSERT INTO " ++ t ++ "(" ++ Go.Join cols ", " ++ ") VALUES "
  /\ valuesPerRow b = Go.len cols
  /\ vals b = List.concat (accepted b rs)
  /\ holds_rows b (List.length (accepted b rs)).
Proof.
  intros H. destruct (built_inv _ _ _ _ H) as (b0 & HI & -> & A & B & C & D).
  destruct (Init_zero_fields _ _ _ HI) as (I1 & I2 & I3 & I4 & I5).
  rewrite D. repeat split.
  - now rewrite A.
  - now rewrite B.
  - rewrite accumulate_vals, I3. reflexivity.
  - apply (proj1 (accumulate_holds b0 rs 0 ltac:(split; [rewrite I3|rewrite I2]; reflexivity))).
  - apply (proj2 (accumulate_holds b0 rs 0 ltac:(split; [rewrite I3|rewrite I2]; reflexivity))).
Qed.

Lemma built_helper t cols rs b :
  Go.len cols <= Go.int_max ->
  built t cols rs = Some b ->
  1 <= valuesPerRow b
  /\ placeholderStrHelper b
     = "(?" ++ Go.rep ",?" (Z.to_nat (valuesPerRow b - 1)) ++ "),"
  /\ Go.slen (placeholderStrHelper b) = 2 * (valuesPerRow b + 1)
  /\ initStr b <> EmptyString.
Proof.
  intros Hmax H. destruct (built_inv _ _ _ _ H) as (b0 & HI & _ & A & B & C & _).
  destruct (Init_helper _ _ _ Hmax HI) as (H1 & H2).
  destruct (Init_zero_fields _ _ _ HI) as (I1 & _).
  rewrite A, B, C. repeat split; auto.
  - rewrite H2. unfold Go.slen.
    rewrite !GoFacts.length_append, GoFacts.length_rep.
    cbn [String.length]. lia.
  - rewrite I1. discriminate.
Qed.

(** The batches of [Insert] on such a builder, in closed form. *)
Lemma built_batches limit t cols rs b rod :
  0 < limit -> 4 * limit <= Go.int_max ->
  Go.len cols <= Go.int_max ->
  built t cols rs = Some b ->
  Go.slen (initStr b) + Go.slen (placeholderStr b) <= Go.int_max ->
  limit <= Go.len (vals b) ->
  batches limit b rod
  = map (fun k => batchOf limit b (List.length (accepted b rs)) rod
                          (Z.of_nat k))
        (seq 0 (Z.to_nat (batchCount limit b))).
Proof.
  intros H0 H1 H2 Hb Hmem Hn.
  destruct (built_helper _ _ _ _ H2 Hb) as (A & _ & B & C).
  destruct (built_shape _ _ _ _ Hb) as (_ & _ & _ & D).
  apply batches_shape; auto.
Qed.

End Built.


(** ** The batched branch of Insert *)

Section Batched.

Context {V E : Type}.
Implicit Types (b : Bulk V) (db : DB V E) (rs : list (list V)).

Lemma nth_error_map_seq {B : Type} (f : nat -> B) (n k : nat) (x : B) :
  nth_error (map f (seq 0 n)) k = Some x -> (k < n)%nat /\ x = f k.
Proof.
  intros H. rewrite nth_error_map in H.
  destruct (nth_error (seq 0 n) k) as [j|] eqn:Hj; [|discriminate].
  assert (Hk : (k < n)%nat).
  { rewrite <- (length_seq n 0). apply nth_error_Some. congruence. }
  rewrite nth_error_seq in Hj.
  destruct (Nat.ltb k n); [|discriminate].
  injection Hj as <-. injection H as <-. auto.
Qed.

(** The batched branch on a builder made by [Init] and [PrepareValues]:
    the batches of the closed form, then whatever the driver answers. *)
Lemma built_batches_planned limit t cols rs b rod e :
  0 < limit -> 4 * limit <= Go.int_max ->
  Go.len cols <= Go.int_max ->
  built t cols rs = Some b ->
  Go.slen (initStr b) + Go.slen (placeholderStr b) <= Go.int_max ->
  limit <= Go.len (vals b) ->
  clause b rod ", " = Some e ->
  batches limit b rod
  = map Some (planned limit b (List.length (accepted b rs)) e).
Proof.
  intros H0 H1 H2 Hb Hmem Hn Hcl.
  rewrite (built_batches limit t cols rs b rod) by assumption.
  unfold planned. rewrite map_map. apply map_ext. intros k. unfold batchOf.
  rewrite Hcl. reflexivity.
Qed.

Lemma built_len_max t cols rs b :
  Go.len cols <= Go.int_max ->
  built t cols rs = Some b ->
  Go.slen (initStr b) + Go.slen (placeholderStr b) <= Go.int_max ->
  Go.len (vals b) <= Go.int_max /\ valuesPerRow b <> 0.
Proof.
  intros H2 Hb Hmem.
  destruct (built_helper _ _ _ _ H2 Hb) as (A & _ & B & C).
  destruct (built_shape _ _ _ _ Hb) as (_ & _ & _ & D).
  split; [|lia].
  apply (plan_len_max b (List.length (accepted b rs)) 1 A B D Hmem).
  unfold Go.int_max. lia.
Qed.

Lemma built_run limit db t cols rs b rod e :
  0 < limit -> 4 * limit <= Go.int_max ->
  Go.len cols <= Go.int_max ->
  built t cols rs = Some b ->
  Go.slen (initStr b) + Go.slen (placeholderStr b) <= Go.int_max ->
  limit <= Go.len (vals b) ->
  always_ok db ->
  clause b rod ", " = Some e ->
  run (InsertWith limit db rod) b
  = (b, calls (planned limit b (List.length (accepted b rs)) e), Val tt).
Proof.
  intros H0 H1 H2 Hb Hmem Hn Hok Hcl.
  destruct (built_len_max _ _ _ _ H2 Hb Hmem) as [Hlen Hc].
  rewrite InsertWith_batched by lia.
  rewrite (built_batches_planned limit t cols rs b rod e) by assumption.
  rewrite runPlan_all by (apply always_ok_succeeds, Hok). reflexivity.
Qed.

(** C1.  On a builder made by [Init] and [PrepareValues] that holds at
    least [limit] values, with a driver that accepts every call, [Insert]
    prepares and executes exactly [ceil(len(vals) / limit)] batches and
    returns nil; the value lists of the batches, put end to end in batch
    order, are the accumulated values; every batch but the last takes
    the [limit / valuesPerRow] rows that follow those of the batches
    before it, and the last batch takes all the values that are left. *)
Theorem Insert_batches_partition
    (limit : Z) db (t : string) (cols : list string) rs b (rod : bool)
    (e : string) :
  0 < limit -> 4 * limit <= Go.int_max ->
  Go.len cols <= Go.int_max ->
  built t cols rs = Some b ->
  Go.slen (initStr b) + Go.slen (placeholderStr b) <= Go.int_max ->
  limit <= Go.len (vals b) ->
  always_ok db ->
  clause b rod ", " = Some e ->
  exists l : list (string * list V),
    run (InsertWith limit db rod) b = (b, calls l, Val tt)
    /\ Z.of_nat (List.length l) = ceil_div (Go.len (vals b)) limit
    /\ List.concat (map snd l) = vals b
    /\ (forall k sv,
          nth_error l k = Some sv ->
          Z.of_nat k < ceil_div (Go.len (vals b)) limit - 1 ->
          snd sv
          = firstn (Z.to_nat (limit / valuesPerRow b * valuesPerRow b))
              (skipn (k * Z.to_nat (limit / valuesPerRow b * valuesPerRow b))
                     (vals b))
          /\ Go.len (snd sv) = limit / valuesPerRow b * valuesPerRow b)
    /\ (forall k sv,
          nth_error l k = Some sv ->
          Z.of_nat k = ceil_div (Go.len (vals b)) limit - 1 ->
          snd sv
          = skipn (k * Z.to_nat (limit / valuesPerRow b * valuesPerRow b))
                  (vals b)).
Proof.
  intros H0 H1 H2 Hb Hmem Hn Hok Hcl.
  destruct (built_helper _ _ _ _ H2 Hb) as (A & _ & B & C).
  destruct (built_shape _ _ _ _ Hb) as (_ & _ & _ & D).
  set (N := List.length (accepted b rs)) in *.
  assert (Hlim : 0 < limit /\ 4 * limit <= Go.int_max) by auto.
  pose proof (plan_K b N limit A D Hlim Hn) as HK.
  pose proof (plan_rpb b limit A Hlim) as Hr.
  pose proof (plan_rows_left b N limit A D Hlim Hn) as Hleft.
  pose proof (plan_len_vals b N D) as Hlv.
  exists (planned limit b N e).
  split; [|split; [|split; [|split]]].
  - apply (built_run limit db t cols rs b rod e); assumption.
  - unfold planned. rewrite length_map, length_seq.
    fold (batchCount limit b). lia.
  - unfold planned. rewrite map_map. cbn [snd].
    apply (plan_concat b N limit A D Hlim Hn).
  - intros k sv Hk Hlt. apply nth_error_map_seq in Hk. destruct Hk as [Hk ->].
    cbn [snd]. fold (batchCount limit b) (rowsPerBatch limit b) in *.
    rewrite (plan_vals_nonlast b N limit A Hlim k Hlt).
    split; [reflexivity|].
    set (rpb := rowsPerBatch limit b) in *.
    set (K := batchCount limit b) in *.
    unfold Go.len in *. rewrite length_firstn, length_skipn.
    assert (rpb * (Z.of_nat k + 1) <= Z.of_nat N) by nia.
    assert (rpb * valuesPerRow b * (Z.of_nat k + 1)
            <= Z.of_nat N * valuesPerRow b).
    { replace (rpb * valuesPerRow b * (Z.of_nat k + 1))
        with (rpb * (Z.of_nat k + 1) * valuesPerRow b) by ring.
      apply Z.mul_le_mono_nonneg_r; lia. }
    assert (Z.of_nat (k * Z.to_nat (rpb * valuesPerRow b))
            = rpb * valuesPerRow b * Z.of_nat k)
      by (rewrite Nat2Z.inj_mul, Z2Nat.id by lia; ring).
    assert (0 <= rpb * valuesPerRow b) by lia.
    lia.
  - intros k sv Hk Hlt. apply nth_error_map_seq in Hk. destruct Hk as [Hk ->].
    cbn [snd]. fold (batchCount limit b) (rowsPerBatch limit b) in *.
    apply (plan_vals_last b N limit A D Hlim Hn k Hlt).
Qed.

End Batched.

(** ** Worked examples *)

Example scenario_limit5 :
  built "t" ["x"; "y"] Ex.rows_xy4 = Some Ex.xy4
  /\ run (InsertWith (E:=string) 5 quiet false) Ex.xy4
     = (Ex.xy4,
        [CPrepare "INSERT INTO t(x, y) VALUES (?,?),(?,?)";
         CExec "INSERT INTO t(x, y) VALUES (?,?),(?,?)" [1; 2; 3; 4];
         CPrepare "INSERT INTO t(x, y) VALUES (?,?),(?,?)";
         CExec "INSERT INTO t(x, y) VALUES (?,?),(?,?)" [5; 6; 7; 8]],
        Val tt).
Proof. split; reflexivity. Qed.

Example scenario_single_row :
  built "t" ["id"] [[7]] = Some Ex.id1
  /\ run (Insert (E:=string) quiet false) Ex.id1
     = (mkBulk "INSERT INTO t(id) VALUES " "(?)" [7] 1 1 "(?),",
        [CPrepare "INSERT INTO t(id) VALUES (?)";
         CExec "INSERT INTO t(id) VALUES (?)" [7]],
        Val tt).
Proof. split; reflexivity. Qed.

Lemma Insert_batches_partition_witness :
  exists l : list (string * list Z),
    run (InsertWith (E:=string) 5 quiet false) Ex.xy4
    = (Ex.xy4, calls l, Val tt)
    /\ Z.of_nat (List.length l) = ceil_div (Go.len (vals Ex.xy4)) 5
    /\ List.concat (map snd l) = vals Ex.xy4
    /\ (forall k sv,
          nth_error l k = Some sv ->
          Z.of_nat k < ceil_div (Go.len (vals Ex.xy4)) 5 - 1 ->
          snd sv
          = firstn (Z.to_nat (5 / valuesPerRow Ex.xy4 * valuesPerRow Ex.xy4))
              (skipn (k * Z.to_nat (5 / valuesPerRow Ex.xy4
                                    * valuesPerRow Ex.xy4))
                     (vals Ex.xy4))
          /\ Go.len (snd sv)
             = 5 / valuesPerRow Ex.xy4 * valuesPerRow Ex.xy4)
    /\ (forall k sv,
          nth_error l k = Some sv ->
          Z.of_nat k = ceil_div (Go.len (vals Ex.xy4)) 5 - 1 ->
          snd sv
          = skipn (k * Z.to_nat (5 / valuesPerRow Ex.xy4
                                 * valuesPerRow Ex.xy4))
                  (vals Ex.xy4)).
Proof.
  apply (Insert_batches_partition 5 quiet "t" ["x"; "y"] Ex.rows_xy4
           Ex.xy4 false EmptyString).
  - reflexivity.
  - vm_compute. discriminate.
  - vm_compute. discriminate.
  - reflexivity.
  - vm_compute. discriminate.
  - vm_compute. discriminate.
  - split; reflexivity.
  - reflexivity.
Defined.

(** ** PrepareValues: arity check and the invariant of the buffers *)

Example arity_error_1_2 :
  arity_error 1 2
  = "ERROR: Inserted a wrong amount of values: Inserted: 1  Required: 2 "
    ++ String "010"%char EmptyString.
Proof. reflexivity. Qed.

(** C4.  A row whose length differs from [valuesPerRow] is rejected with
    the error text that carries the number of values given and the number
    required, and the builder is returned as it was; a row of the right
    length is accepted without error, its values are appended in order,
    one placeholder group is appended and the row counter is incremented
    (by one, as long as the counter does not overflow). *)
Theorem PrepareValues_arity {V : Type} (b : Bulk V) (vs : list V) :
  (Go.len vs <> valuesPerRow b ->
   PrepareValues b vs
   = (b, Some ("ERROR: Inserted a wrong amount of values: Inserted: "
               ++ Go.itoa (Go.len vs) ++ "  Required: "
               ++ Go.itoa (valuesPerRow b) ++ " " ++ String "010"%char EmptyString)))
  /\ (Go.len vs = valuesPerRow b ->
      snd (PrepareValues b vs) = None
      /\ vals (fst (PrepareValues b vs)) = (vals b ++ vs)%list
      /\ placeholderStr (fst (PrepareValues b vs))
         = placeholderStr b ++ placeholderStrHelper b
      /\ rows (fst (PrepareValues b vs)) = Go.add (rows b) 1
      /\ (Go.int_min <= rows b < Go.int_max ->
          rows (fst (PrepareValues b vs)) = rows b + 1)
      /\ initStr (fst (PrepareValues b vs)) = initStr b
      /\ valuesPerRow (fst (PrepareValues b vs)) = valuesPerRow b
      /\ placeholderStrHelper (fst (PrepareValues b vs))
         = placeholderStrHelper b).
Proof.
  split; intros H.
  - now rewrite PrepareValues_reject.
  - rewrite PrepareValues_accept by exact H. cbn [fst snd vals placeholderStr
      rows initStr valuesPerRow placeholderStrHelper].
    repeat split. intros Hr. unfold Go.add.
    apply GoFacts.wrap_small. unfold Go.int_min, Go.int_max in *. lia.
Qed.

Lemma PrepareValues_arity_witness :
  PrepareValues Ex.ab1 [5]
  = (Ex.ab1,
     Some ("ERROR: Inserted a wrong amount of values: Inserted: "
           ++ Go.itoa (Go.len [5]) ++ "  Required: "
           ++ Go.itoa (valuesPerRow Ex.ab1) ++ " " ++ String "010"%char EmptyString))
  /\ (snd (PrepareValues Ex.ab1 [3; 4]) = None
      /\ vals (fst (PrepareValues Ex.ab1 [3; 4])) = [1; 2; 3; 4]
      /\ placeholderStr (fst (PrepareValues Ex.ab1 [3; 4])) = "(?,?),(?,?),"
      /\ rows (fst (PrepareValues Ex.ab1 [3; 4])) = 2).
Proof.
  split.
  - apply (proj1 (PrepareValues_arity Ex.ab1 [5])). vm_compute. discriminate.
  - destruct (proj2 (PrepareValues_arity Ex.ab1 [3; 4]) eq_refl)
      as (A & B & C & _ & D & _).
    split; [exact A | split; [exact B | split; [exact C |]]].
    apply D. vm_compute. split; [discriminate | reflexivity].
Defined.

(** C5.  On a builder that [Init] returns, after any sequence of
    [PrepareValues] calls of which [N] are accepted, [len(vals)] is
    [N * valuesPerRow], the values are those of the accepted rows in
    order, and the placeholder buffer is [N] copies of the placeholder
    group of one row; one more call, accepted or rejected, keeps the two
    buffers in step. *)
Theorem accumulate_invariant {V : Type}
    (t : string) (cols : list string) (b0 : Bulk V) (rs : list (list V)) :
  Init zero t cols = Some b0 ->
  valuesPerRow (accumulate b0 rs) = Go.len cols
  /\ Go.len (vals (accumulate b0 rs))
     = Z.of_nat (List.length (accepted b0 rs)) * Go.len cols
  /\ vals (accumulate b0 rs) = List.concat (accepted b0 rs)
  /\ placeholderStr (accumulate b0 rs)
     = Go.rep (placeholderStrHelper b0) (List.length (accepted b0 rs))
  /\ (Go.len cols <= Go.int_max ->
      placeholderStrHelper b0
      = "(?" ++ Go.rep ",?" (Z.to_nat (Go.len cols - 1)) ++ "),")
  /\ (forall vs,
        let b' := fst (PrepareValues (accumulate b0 rs) vs) in
        let N' := if Go.len vs =? Go.len cols
                  then S (List.length (accepted b0 rs))
                  else List.length (accepted b0 rs) in
        Go.len (vals b') = Z.of_nat N' * Go.len cols
        /\ placeholderStr b' = Go.rep (placeholderStrHelper b0) N').
Proof.
  intros HI.
  destruct (Init_zero_fields _ _ _ HI) as (I1 & I2 & I3 & I4 & I5).
  destruct (accumulate_fixed b0 rs) as (F1 & F2 & F3).
  assert (H0 : holds_rows b0 0) by (split; [rewrite I3 | rewrite I2]; reflexivity).
  pose proof (accumulate_holds b0 rs 0 H0) as [Hv Hp]. cbn [Nat.add] in Hv, Hp.
  rewrite F2, I5 in Hv. rewrite F3 in Hp.
  repeat split.
  - now rewrite F2.
  - exact Hv.
  - now rewrite accumulate_vals, I3.
  - exact Hp.
  - intros Hmax. destruct (Init_helper _ _ _ Hmax HI) as [_ Hh].
    now rewrite I5 in Hh.
  - pose proof (holds_rows_step (accumulate b0 rs) vs
                  (List.length (accepted b0 rs))
                  (accumulate_holds b0 rs 0 H0)) as [Hs _].
    destruct (PrepareValues_fixed (accumulate b0 rs) vs) as (_ & G2 & _).
    cbv zeta in G2. rewrite G2, F2, I5 in Hs. exact Hs.
  - pose proof (holds_rows_step (accumulate b0 rs) vs
                  (List.length (accepted b0 rs))
                  (accumulate_holds b0 rs 0 H0)) as [_ Hs].
    destruct (PrepareValues_fixed (accumulate b0 rs) vs) as (_ & G2 & G3).
    cbv zeta in G2, G3. rewrite G3, F2, F3, I5 in Hs. exact Hs.
Qed.

Lemma accumulate_invariant_witness :
  Go.len (vals (accumulate Ex.xy0 ([9] :: Ex.rows_xy4))) = 4 * 2
  /\ vals (accumulate Ex.xy0 ([9] :: Ex.rows_xy4)) = [1; 2; 3; 4; 5; 6; 7; 8]
  /\ placeholderStr (accumulate Ex.xy0 ([9] :: Ex.rows_xy4))
     = Go.rep "(?,?)," 4.
Proof.
  destruct (accumulate_invariant "t" ["x"; "y"] Ex.xy0 ([9] :: Ex.rows_xy4)
              eq_refl) as (_ & A & B & C & _).
  split; [exact A | split; [exact B | exact C]].
Defined.

(** ** The single-statement branch of Insert *)

Section Single.

Context {V E : Type}.
Implicit Types (b : Bulk V) (db : DB V E) (rs : list (list V)).

Lemma insertAll_run db b rod e log :
  placeholderStr b <> EmptyString ->
  Go.slen (placeholderStr b) <= Go.int_max ->
  clause b rod "," = Some e ->
  insertAll db rod (b, log)
  = ((trimmed b,
      fst (attempt db log (initStr b ++ trimLast (placeholderStr b) ++ e)
                   (vals b))),
     snd (attempt db log (initStr b ++ trimLast (placeholderStr b) ++ e)
                  (vals b))).
Proof.
  intros Hne Hmax Hcl.
  unfold insertAll, bind, get, try, set_placeholderStr, ret, db_Prepare,
    stmt_Exec, attempt.
  cbn [fst snd]. rewrite GoFacts.slice_trim by assumption.
  cbn [fst snd initStr placeholderStr vals]. fold (trimmed b).
  unfold clause in Hcl. destruct rod.
  - rewrite Hcl. rewrite GoFacts.append_assoc. cbn [fst snd].
    destruct (prepare_err db log _); cbn [fst snd]; [reflexivity|].
    rewrite <- app_assoc. cbn [app].
    destruct (exec_err db _ _ _); reflexivity.
  - injection Hcl as <-. rewrite GoFacts.append_nil_r. cbn [fst snd].
    destruct (prepare_err db log _); cbn [fst snd]; [reflexivity|].
    rewrite <- app_assoc. cbn [app].
    destruct (exec_err db _ _ _); reflexivity.
Qed.

Lemma InsertWith_single limit db b rod e :
  placeholderStr b <> EmptyString ->
  Go.slen (placeholderStr b) <= Go.int_max ->
  Go.len (vals b) < limit ->
  clause b rod "," = Some e ->
  run (InsertWith limit db rod) b
  = (trimmed b,
     fst (attempt db [] (initStr b ++ trimLast (placeholderStr b) ++ e)
                  (vals b)),
     snd (attempt db [] (initStr b ++ trimLast (placeholderStr b) ++ e)
                  (vals b))).
Proof.
  intros Hne Hmax Hn Hcl. unfold run, InsertWith.
  unfold bind at 1. cbn [get fst].
  replace (Go.len (vals b) <? limit) with true
    by (symmetry; apply Z.ltb_lt; lia).
  now apply insertAll_run.
Qed.

(** With no placeholder text the trim of line 43 panics before any call. *)
Lemma InsertWith_empty limit db b rod :
  placeholderStr b = EmptyString -> Go.len (vals b) < limit ->
  run (InsertWith limit db rod) b = (b, [], Panic).
Proof.
  intros Hp Hn. unfold run, InsertWith.
  unfold bind at 1. cbn [get fst].
  replace (Go.len (vals b) <? limit) with true
    by (symmetry; apply Z.ltb_lt; lia).
  unfold insertAll. unfold bind at 1. cbn [get fst].
  unfold bind at 1. cbn [try]. rewrite Hp. reflexivity.
Qed.

Lemma accumulate_rows b rs :
  0 <= rows b ->
  rows b + Z.of_nat (List.length (accepted b rs)) <= Go.int_max ->
  rows (accumulate b rs) = rows b + Z.of_nat (List.length (accepted b rs)).
Proof.
  revert b. induction rs as [|r rs IH]; intros b H0 Hmax.
  - cbn. lia.
  - change (accumulate b (r :: rs))
      with (accumulate (fst (PrepareValues b r)) rs).
    assert (Hacc : accepted b (r :: rs)
                   = if Go.len r =? valuesPerRow b
                     then r :: accepted b rs else accepted b rs)
      by reflexivity.
    assert (Hrest : accepted (fst (PrepareValues b r)) rs = accepted b rs).
    { destruct (PrepareValues_fixed b r) as (_ & Hc & _). cbv zeta in Hc.
      unfold accepted. now rewrite Hc. }
    rewrite Hacc in *. clear Hacc.
    destruct (Go.len r =? valuesPerRow b) eqn:Q.
    + cbn [List.length] in *.
      assert (Hr1 : rows (fst (PrepareValues b r)) = rows b + 1).
      { rewrite PrepareValues_accept by (apply Z.eqb_eq; exact Q).
        cbn [fst rows]. unfold Go.add. apply GoFacts.wrap_small.
        unfold Go.int_min, Go.int_max in *. lia. }
      rewrite IH; rewrite ?Hrest, ?Hr1; lia.
    + apply Z.eqb_neq in Q. rewrite PrepareValues_reject in * by exact Q.
      cbn [fst] in *. now apply IH.
Qed.

Lemma built_rows t cols rs b :
  built t cols rs = Some b ->
  Z.of_nat (List.length (accepted b rs)) <= Go.int_max ->
  rows b = Z.of_nat (List.length (accepted b rs)).
Proof.
  intros Hb Hmax.
  destruct (built_inv _ _ _ _ Hb) as (b0 & HI & -> & _ & _ & _ & D).
  destruct (Init_zero_fields _ _ _ HI) as (_ & _ & _ & I4 & _).
  rewrite D in *. rewrite accumulate_rows; rewrite I4; lia.
Qed.

(** With a row accepted, the placeholder text ends with the separator of
    its last group. *)
Lemma built_placeholders t cols rs b :
  Go.len cols <= Go.int_max ->
  built t cols rs = Some b ->
  accepted b rs <> [] ->
  exists p,
    placeholderStr b = p ++ "," /\ trimLast (placeholderStr b) = p.
Proof.
  intros Hmax Hb Hne.
  destruct (built_helper _ _ _ _ Hmax Hb) as (_ & Hh & _).
  destruct (built_shape _ _ _ _ Hb) as (_ & _ & _ & _ & Hp).
  destruct (accepted b rs) as [|r l]; [congruence|]. cbn [List.length] in Hp.
  rewrite <- rep_snoc in Hp. rewrite Hh in Hp at 2.
  exists (Go.rep (placeholderStrHelper b) (List.length l)
          ++ "(?" ++ Go.rep ",?" (Z.to_nat (valuesPerRow b - 1)) ++ ")").
  assert (Hq : placeholderStr b
               = Go.rep (placeholderStrHelper b) (List.length l)
                 ++ ("(?" ++ Go.rep ",?" (Z.to_nat (valuesPerRow b - 1)) ++ ")")
                 ++ String "," EmptyString).
  { rewrite Hp. f_equal. cbn [append]. f_equal. f_equal.
    now rewrite GoFacts.append_assoc. }
  split.
  - rewrite Hq. now rewrite <- GoFacts.append_assoc.
  - rewrite Hq. apply GoFacts.trimLast_app.
Qed.

End Single.

Section SingleClaims.

Context {V E : Type}.
Implicit Types (b : Bulk V) (db : DB V E) (rs : list (list V)).

(** C3, amended.  On a builder made by [Init] and [PrepareValues] that
    holds at least one row and fewer than [limit] values, [Insert] hands
    exactly one batch to the driver: its text is the statement prefix,
    then all the accumulated placeholder groups without the separator
    after the last one, then the upsert clause if one was asked for, and
    its value list is the whole accumulated value list. *)
Theorem Insert_single_batch
    (limit : Z) db (t : string) (cols : list string) rs b (rod : bool)
    (e : string) :
  Go.len cols <= Go.int_max ->
  built t cols rs = Some b ->
  accepted b rs <> [] ->
  Go.slen (placeholderStr b) <= Go.int_max ->
  Go.len (vals b) < limit ->
  clause b rod "," = Some e ->
  exists p : string,
    placeholderStr b = p ++ ","
    /\ p ++ "," = Go.rep (placeholderStrHelper b)
                         (List.length (accepted b rs))
    /\ vals b = List.concat (accepted b rs)
    /\ run (InsertWith limit db rod) b
       = (trimmed b,
          fst (attempt db [] (initStr b ++ p ++ e) (vals b)),
          snd (attempt db [] (initStr b ++ p ++ e) (vals b)))
    /\ (always_ok db ->
        run (InsertWith limit db rod) b
        = (trimmed b,
           [CPrepare (initStr b ++ p ++ e);
            CExec (initStr b ++ p ++ e) (vals b)],
           Val tt)).
Proof.
  intros Hmax Hb Hne Hmem Hn Hcl.
  destruct (built_placeholders _ _ _ _ Hmax Hb Hne) as (p & Hp & Ht).
  destruct (built_shape _ _ _ _ Hb) as (_ & _ & Hv & _ & Hr).
  assert (Hrun :
    run (InsertWith limit db rod) b
    = (trimmed b,
       fst (attempt db [] (initStr b ++ p ++ e) (vals b)),
       snd (attempt db [] (initStr b ++ p ++ e) (vals b)))).
  { rewrite <- Ht. apply InsertWith_single; try assumption.
    rewrite Hp. destruct p; discriminate. }
  exists p. split; [exact Hp|]. split; [now rewrite <- Hp|].
  split; [exact Hv|]. split; [exact Hrun|].
  intros [Hpo Heo]. rewrite Hrun. unfold attempt. now rewrite Hpo, Heo.
Qed.

(** C10.  On a builder made by [Init] and [PrepareValues], the trim
    [placeholderStr[0 : len(placeholderStr)-1]] is in range as soon as a
    row was accumulated, and it is out of range when none was: nothing
    guards the empty builder, on which [Insert] panics before any call to
    the driver.  The trim of the batched branch cuts a text that starts
    with the statement prefix and is always in range. *)
Theorem trim_needs_a_row (t : string) (cols : list string) rs b :
  Go.len cols <= Go.int_max ->
  built t cols rs = Some b ->
  Go.slen (initStr b) + Go.slen (placeholderStr b) <= Go.int_max ->
  (1 <= rows b ->
   exists p,
     placeholderStr b = p ++ ","
     /\ Go.slice (placeholderStr b) 0
                 (Go.sub (Go.slen (placeholderStr b)) 1) = Some p)
  /\ (rows b = 0 ->
      placeholderStr b = EmptyString
      /\ Go.slice (placeholderStr b) 0
                  (Go.sub (Go.slen (placeholderStr b)) 1) = None
      /\ forall limit db rod,
           0 < limit -> run (InsertWith limit db rod) b = (b, [], Panic))
  /\ (forall q,
        Go.slen (initStr b ++ q) <= Go.int_max ->
        Go.slice (initStr b ++ q) 0 (Go.sub (Go.slen (initStr b ++ q)) 1)
        = Some (trimLast (initStr b ++ q))).
Proof.
  intros Hmax Hb Hmem.
  destruct (built_helper _ _ _ _ Hmax Hb) as (Hc & _ & Hw & Hi).
  destruct (built_shape _ _ _ _ Hb) as (_ & _ & Hv & Hr).
  assert (H0 : 0 <= Go.slen (initStr b)) by (unfold Go.slen; lia).
  assert (Hph : Go.slen (placeholderStr b) <= Go.int_max) by lia.
  assert (HN : Z.of_nat (List.length (accepted b rs)) <= Go.int_max).
  { pose proof (plan_slen_ph b _ Hw Hr) as Hs. nia. }
  pose proof (built_rows _ _ _ _ Hb HN) as Hrows.
  split; [|split].
  - intros H1.
    assert (Hne : accepted b rs <> [])
      by (intros Hnil; rewrite Hnil in Hrows; cbn in Hrows; lia).
    destruct (built_placeholders _ _ _ _ Hmax Hb Hne) as (p & Hp & Ht).
    exists p. split; [exact Hp|]. rewrite <- Ht.
    apply GoFacts.slice_trim; [|exact Hph].
    rewrite Hp. destruct p; discriminate.
  - intros Hz.
    assert (Hnil : accepted b rs = [])
      by (destruct (accepted b rs); [reflexivity | cbn [List.length] in Hrows; lia]).
    destruct Hr as [_ Hp]. rewrite Hnil in Hp, Hv. cbn in Hp, Hv.
    split; [exact Hp|]. split; [rewrite Hp; reflexivity|].
    intros limit db rod Hl. apply InsertWith_empty; [exact Hp|].
    rewrite Hv. cbn. exact Hl.
  - intros q Hq. apply GoFacts.slice_trim; [|exact Hq].
    destruct (initStr b); [congruence | discriminate].
Qed.

End SingleClaims.

(** The claim of a single batch for every builder under the limit fails
    on a builder without a row: no batch is handed to the driver. *)
Lemma Insert_single_batch_needs_row :
  built "t" ["id"] [] = Some Ex.id0
  /\ Go.len (vals Ex.id0) < PLACEHOLDER_LIMIT
  /\ run (Insert Ex.ok false) Ex.id0 = (Ex.id0, [], Panic)
  /\ ~ (exists text,
          snd (fst (run (Insert Ex.ok false) Ex.id0))
          = [CPrepare text; CExec text (vals Ex.id0)]).
Proof.
  split; [reflexivity|]. split; [reflexivity|]. split; [reflexivity|].
  intros [text H]. discriminate H.
Qed.

Lemma Insert_single_batch_witness :
  exists p : string,
    placeholderStr Ex.id1 = p ++ ","
    /\ p ++ "," = Go.rep (placeholderStrHelper Ex.id1)
                         (List.length (accepted Ex.id1 [[7]]))
    /\ vals Ex.id1 = List.concat (accepted Ex.id1 [[7]])
    /\ run (Insert Ex.ok false) Ex.id1
       = (trimmed Ex.id1,
          fst (attempt Ex.ok [] (initStr Ex.id1 ++ p ++ EmptyString) (vals Ex.id1)),
          snd (attempt Ex.ok [] (initStr Ex.id1 ++ p ++ EmptyString) (vals Ex.id1)))
    /\ (always_ok Ex.ok ->
        run (Insert Ex.ok false) Ex.id1
        = (trimmed Ex.id1,
           [CPrepare (initStr Ex.id1 ++ p ++ EmptyString);
            CExec (initStr Ex.id1 ++ p ++ EmptyString) (vals Ex.id1)],
           Val tt)).
Proof.
  apply (Insert_single_batch PLACEHOLDER_LIMIT Ex.ok "t" ["id"] [[7]]
           Ex.id1 false EmptyString).
  - vm_compute. discriminate.
  - reflexivity.
  - vm_compute. discriminate.
  - vm_compute. discriminate.
  - reflexivity.
  - reflexivity.
Defined.

Lemma trim_needs_a_row_witness :
  (exists p,
     placeholderStr Ex.id1 = p ++ ","
     /\ Go.slice (placeholderStr Ex.id1) 0
                 (Go.sub (Go.slen (placeholderStr Ex.id1)) 1) = Some p)
  /\ (placeholderStr Ex.id0 = EmptyString
      /\ Go.slice (placeholderStr Ex.id0) 0
                  (Go.sub (Go.slen (placeholderStr Ex.id0)) 1) = None
      /\ forall limit (db : DB Z string) rod,
           0 < limit -> run (InsertWith limit db rod) Ex.id0
                        = (Ex.id0, [], Panic)).
Proof.
  split.
  - apply (proj1 (trim_needs_a_row (E:=string) "t" ["id"] [[7]] Ex.id1
                    ltac:(vm_compute; discriminate) eq_refl
                    ltac:(vm_compute; discriminate))).
    vm_compute. discriminate.
  - apply (proj1 (proj2 (trim_needs_a_row (E:=string) "t" ["id"] [] Ex.id0
                    ltac:(vm_compute; discriminate) eq_refl
                    ltac:(vm_compute; discriminate)))).
    reflexivity.
Defined.

(** ** Failures of the driver *)

Section Failures.

Context {V E : Type}.
Implicit Types (b : Bulk V) (db : DB V E).

(** C9.  In the batched branch, when the driver has accepted the batches
    [pre] and fails on the next one, at Prepare or at Exec, [Insert]
    returns that error at once: the calls made are those of [pre], which
    stay executed, and the calls of the failing batch up to the failure;
    the batches [rest] that follow are neither assembled (they may be
    anything, even a panic) nor prepared nor executed. *)
Theorem Insert_stops_at_first_failure
    (limit : Z) db b (rod : bool) (pre : list (string * list V))
    (t : string) (v : list V) (rest : list (option (string * list V)))
    (e : E) :
  0 < limit ->
  limit <= Go.len (vals b) <= Go.int_max ->
  valuesPerRow b <> 0 ->
  batches limit b rod = (map Some pre ++ Some (t, v) :: rest)%list ->
  succeeds db [] pre ->
  (prepare_err db (calls pre) t = Some e ->
   run (InsertWith limit db rod) b
   = (b, (calls pre ++ [CPrepare t])%list, Err e))
  /\ (prepare_err db (calls pre) t = None ->
      exec_err db (calls pre ++ [CPrepare t])%list t v = Some e ->
      run (InsertWith limit db rod) b
      = (b, (calls pre ++ [CPrepare t; CExec t v])%list, Err e)).
Proof.
  intros Hl Hn Hc Hbs Hs. split.
  - intros Hp. rewrite InsertWith_batched by lia. rewrite Hbs.
    exact (runPlan_prepare_fails db pre t v rest b [] e Hs Hp).
  - intros Hp He. rewrite InsertWith_batched by lia. rewrite Hbs.
    exact (runPlan_exec_fails db pre t v rest b [] e Hs Hp He).
Qed.

End Failures.

Lemma Insert_stops_at_first_failure_witness :
  run (InsertWith 5 (Ex.prepare_fails_at 2 "prepare failed") false) Ex.xy6
  = (Ex.xy6,
     [CPrepare "INSERT INTO t(x, y) VALUES (?,?),(?,?)";
      CExec "INSERT INTO t(x, y) VALUES (?,?),(?,?)" [1; 2; 3; 4];
      CPrepare "INSERT INTO t(x, y) VALUES (?,?),(?,?)"],
     Err "prepare failed")
  /\ run (InsertWith 5 (Ex.exec_fails_at 3 "exec failed") false) Ex.xy6
     = (Ex.xy6,
        [CPrepare "INSERT INTO t(x, y) VALUES (?,?),(?,?)";
         CExec "INSERT INTO t(x, y) VALUES (?,?),(?,?)" [1; 2; 3; 4];
         CPrepare "INSERT INTO t(x, y) VALUES (?,?),(?,?)";
         CExec "INSERT INTO t(x, y) VALUES (?,?),(?,?)" [5; 6; 7; 8]],
        Err "exec failed").
Proof.
  split.
  - apply (proj1 (Insert_stops_at_first_failure 5
             (Ex.prepare_fails_at 2 "prepare failed") Ex.xy6 false
             [("INSERT INTO t(x, y) VALUES (?,?),(?,?)", [1; 2; 3; 4])]
             "INSERT INTO t(x, y) VALUES (?,?),(?,?)" [5; 6; 7; 8]
             [Some ("INSERT INTO t(x, y) VALUES (?,?),(?,?)",
                    [9; 10; 11; 12])]
             "prepare failed"
             eq_refl
             ltac:(vm_compute; split; discriminate)
             ltac:(vm_compute; discriminate)
             eq_refl
             ltac:(vm_compute; repeat split))).
    reflexivity.
  - apply (proj2 (Insert_stops_at_first_failure 5
             (Ex.exec_fails_at 3 "exec failed") Ex.xy6 false
             [("INSERT INTO t(x, y) VALUES (?,?),(?,?)", [1; 2; 3; 4])]
             "INSERT INTO t(x, y) VALUES (?,?),(?,?)" [5; 6; 7; 8]
             [Some ("INSERT INTO t(x, y) VALUES (?,?),(?,?)",
                    [9; 10; 11; 12])]
             "exec failed"
             eq_refl
             ltac:(vm_compute; split; discriminate)
             ltac:(vm_compute; discriminate)
             eq_refl
             ltac:(vm_compute; repeat split))).
    + reflexivity.
    + reflexivity.
Defined.

(** ** The upsert clause *)

(** C6.  Columns a and b, one row, upsert asked for: the single-statement
    branch of [Insert] splits the columns it reads back from the prefix
    on [","] and prepares a text whose clause is
    [a=VALUES(a), b=VALUES( b)], not [a=VALUES(a),b=VALUES(b)]; the
    batched branch, which splits on [", "], gives the clause expected (here
    with the limit lowered to the two values of the row). *)
Theorem upsert_clause_single_statement :
  built "t" ["a"; "b"] [[1; 2]] = Some Ex.ab1
  /\ run (Insert Ex.ok true) Ex.ab1
     = (trimmed Ex.ab1,
        [CPrepare ("INSERT INTO t(a, b) VALUES (?,?)"
                   ++ " ON DUPLICATE KEY UPDATE a=VALUES(a), b=VALUES( b)");
         CExec ("INSERT INTO t(a, b) VALUES (?,?)"
                ++ " ON DUPLICATE KEY UPDATE a=VALUES(a), b=VALUES( b)")
               [1; 2]],
        Val tt)
  /\ run (InsertWith 2 Ex.ok true) Ex.ab1
     = (Ex.ab1,
        [CPrepare ("INSERT INTO t(a, b) VALUES (?,?)"
                   ++ " ON DUPLICATE KEY UPDATE a=VALUES(a),b=VALUES(b)");
         CExec ("INSERT INTO t(a, b) VALUES (?,?)"
                ++ " ON DUPLICATE KEY UPDATE a=VALUES(a),b=VALUES(b)")
               [1; 2]],
        Val tt).
Proof. repeat split. Qed.

Section Separators.

Context {V E : Type}.
Implicit Types (b : Bulk V) (db : DB V E) (rs : list (list V)).

(** C7, amended.  With the upsert flag, the batched branch ends the text
    of every batch with the clause built from the columns that it reads
    back from the prefix and splits on [", "], the separator [Init] joined
    them with. *)
Theorem batched_upsert_separator
    (limit : Z) db (t : string) (cols : list string) rs b (e : string) :
  0 < limit -> 4 * limit <= Go.int_max ->
  Go.len cols <= Go.int_max ->
  built t cols rs = Some b ->
  Go.slen (initStr b) + Go.slen (placeholderStr b) <= Go.int_max ->
  limit <= Go.len (vals b) ->
  always_ok db ->
  onDuplicate (initStr b) ", " = Some e ->
  exists l,
    l <> []
    /\ run (InsertWith limit db true) b = (b, calls l, Val tt)
    /\ forall sv,
         In sv l ->
         exists r,
           fst sv
           = trimLast (initStr b ++ Go.rep (placeholderStrHelper b) r) ++ e.
Proof.
  intros H0 H1 H2 Hb Hmem Hn Hok Hcl.
  exists (planned limit b (List.length (accepted b rs)) e).
  destruct (built_helper _ _ _ _ H2 Hb) as (A & _ & _ & _).
  destruct (built_shape _ _ _ _ Hb) as (_ & _ & _ & D).
  pose proof (plan_K b _ limit A D (conj H0 H1) Hn) as [HK _].
  split; [|split].
  - unfold planned.
    destruct (Z.to_nat (batchCount limit b)) eqn:Q; [lia | discriminate].
  - apply (built_run limit db t cols rs b true e); assumption.
  - intros sv Hin. unfold planned in Hin. apply in_map_iff in Hin.
    destruct Hin as (k & <- & _). cbn [fst]. eexists. reflexivity.
Qed.

Lemma runPlan_log db (l : list (option (string * list V))) b log :
  exists ext r, runPlan db l (b, log) = ((b, (log ++ ext)%list), r).
Proof.
  revert log. induction l as [|o l IH]; intros log.
  - exists [], (Val tt). cbn. now rewrite app_nil_r.
  - cbn [runPlan]. unfold bind, try, db_Prepare, stmt_Exec. cbn [fst snd].
    destruct o as [sv|]; [|exists [], Panic; now rewrite app_nil_r].
    destruct (prepare_err db log (fst sv)).
    + eexists; eexists; reflexivity.
    + destruct (exec_err db _ (fst sv) (snd sv)).
      * eexists; eexists. rewrite <- app_assoc. reflexivity.
      * destruct (IH ((log ++ [CPrepare (fst sv)]) ++ [CExec (fst sv) (snd sv)])%list)
          as (ext & r & ->).
        eexists; eexists. rewrite <- !app_assoc. reflexivity.
Qed.

(** The first batch of a plan is prepared whatever follows. *)
Lemma runPlan_first db sv rest b :
  exists log r,
    runPlan db (Some sv :: rest) (b, []) = ((b, CPrepare (fst sv) :: log), r).
Proof.
  cbn [runPlan]. unfold bind, try, db_Prepare, stmt_Exec. cbn [fst snd app].
  destruct (prepare_err db [] (fst sv)).
  - eexists; eexists; reflexivity.
  - destruct (exec_err db _ (fst sv) (snd sv)).
    + eexists; eexists; reflexivity.
    + destruct (runPlan_log db rest b [CPrepare (fst sv); CExec (fst sv) (snd sv)])
        as (ext & r & ->).
      eexists; eexists; reflexivity.
Qed.

(** Rows wider than the limit: the first batch is the prefix alone. *)
Lemma wide_planned limit t cols rs b rod e :
  0 < limit -> 4 * limit <= Go.int_max ->
  Go.len cols <= Go.int_max ->
  built t cols rs = Some b ->
  accepted b rs <> [] ->
  Go.slen (initStr b) + Go.slen (placeholderStr b) <= Go.int_max ->
  limit < valuesPerRow b ->
  clause b rod ", " = Some e ->
  limit / valuesPerRow b = 0
  /\ limit <= Go.len (vals b)
  /\ exists tl,
       batches limit b rod
       = Some (trimLast (initStr b) ++ e, []) :: map Some tl.
Proof.
  intros H0 H1 H2 Hb Hne Hmem Hwide Hcl.
  destruct (built_helper _ _ _ _ H2 Hb) as (A & _ & _ & _).
  destruct (built_shape _ _ _ _ Hb) as (_ & _ & _ & D).
  set (N := List.length (accepted b rs)) in *.
  assert (HN : 1 <= Z.of_nat N)
    by (subst N; destruct (accepted b rs); [congruence | cbn [List.length]; lia]).
  assert (Hn : limit <= Go.len (vals b)) by (rewrite (proj1 D); nia).
  pose proof (plan_K b N limit A D (conj H0 H1) Hn) as [_ HK].
  assert (HK2 : 2 <= batchCount limit b) by nia.
  assert (Hrpb : limit / valuesPerRow b = 0) by (apply Z.div_small; lia).
  split; [exact Hrpb|]. split; [exact Hn|].
  rewrite (built_batches_planned limit t cols rs b rod e) by assumption.
  fold N. unfold planned.
  destruct (Z.to_nat (batchCount limit b)) as [|m] eqn:Q; [lia|].
  cbn [seq map]. eexists. f_equal. f_equal.
  unfold rowsIn, rowsPerBatch. rewrite Hrpb.
  replace (Z.of_nat 0 =? batchCount limit b - 1) with false
    by (symmetry; apply Z.eqb_neq; lia).
  cbn [Z.to_nat Go.rep Z.mul firstn]. now rewrite GoFacts.append_nil_r.
Qed.

Lemma wide_run_first limit db t cols rs b rod e :
  0 < limit -> 4 * limit <= Go.int_max ->
  Go.len cols <= Go.int_max ->
  built t cols rs = Some b ->
  accepted b rs <> [] ->
  Go.slen (initStr b) + Go.slen (placeholderStr b) <= Go.int_max ->
  limit < valuesPerRow b ->
  clause b rod ", " = Some e ->
  exists log r,
    run (InsertWith limit db rod) b
    = (b, CPrepare (trimLast (initStr b) ++ e) :: log, r).
Proof.
  intros H0 H1 H2 Hb Hne Hmem Hwide Hcl.
  destruct (wide_planned limit t cols rs b rod e) as (_ & Hn & tl & Hbs);
    try assumption.
  destruct (built_len_max _ _ _ _ H2 Hb Hmem) as [Hlen Hc].
  rewrite InsertWith_batched by lia. rewrite Hbs.
  apply (runPlan_first db (trimLast (initStr b) ++ e, []) (map Some tl) b).
Qed.

Lemma wide_run_ok limit db t cols rs b rod e :
  0 < limit -> 4 * limit <= Go.int_max ->
  Go.len cols <= Go.int_max ->
  built t cols rs = Some b ->
  accepted b rs <> [] ->
  Go.slen (initStr b) + Go.slen (placeholderStr b) <= Go.int_max ->
  limit < valuesPerRow b ->
  clause b rod ", " = Some e ->
  always_ok db ->
  exists l,
    run (InsertWith limit db rod) b
    = (b,
       CPrepare (trimLast (initStr b) ++ e)
       :: CExec (trimLast (initStr b) ++ e) [] :: calls l,
       Val tt).
Proof.
  intros H0 H1 H2 Hb Hne Hmem Hwide Hcl Hok.
  destruct (wide_planned limit t cols rs b rod e) as (_ & Hn & tl & Hbs);
    try assumption.
  destruct (built_len_max _ _ _ _ H2 Hb Hmem) as [Hlen Hc].
  exists tl. rewrite InsertWith_batched by lia. rewrite Hbs.
  change (Some (trimLast (initStr b) ++ e, []) :: map Some tl)
    with (map Some ((trimLast (initStr b) ++ e, []) :: tl)).
  rewrite runPlan_all by (apply always_ok_succeeds, Hok). reflexivity.
Qed.

(** C8, amended.  [Init] panics on an empty column list, and that is the
    only configuration rejected: [Insert] checks nothing.  On a builder
    made by [Init] and [PrepareValues] whose [valuesPerRow] exceeds the
    limit and that holds a row, [rowsPerBatch] is zero and the batched
    branch runs all the same: its first batch, the statement prefix
    without its last byte (and the upsert clause, if asked for) with no
    value, is prepared, and executed if the driver accepts it. *)
Theorem Insert_without_configuration_check :
  (forall b0 (t : string), Init (V:=V) b0 t [] = None)
  /\ (forall (limit : Z) db (t : string) (cols : list string) rs b
             (rod : bool) (e : string),
        0 < limit -> 4 * limit <= Go.int_max ->
        Go.len cols <= Go.int_max ->
        built t cols rs = Some b ->
        accepted b rs <> [] ->
        Go.slen (initStr b) + Go.slen (placeholderStr b) <= Go.int_max ->
        limit < valuesPerRow b ->
        clause b rod ", " = Some e ->
        limit / valuesPerRow b = 0
        /\ (exists log r,
              run (InsertWith limit db rod) b
              = (b, CPrepare (trimLast (initStr b) ++ e) :: log, r))
        /\ (always_ok db ->
            exists l,
              run (InsertWith limit db rod) b
              = (b,
                 CPrepare (trimLast (initStr b) ++ e)
                 :: CExec (trimLast (initStr b) ++ e) [] :: calls l,
                 Val tt))).
Proof.
  split; [reflexivity|].
  intros limit db t cols rs b rod e H0 H1 H2 Hb Hne Hmem Hwide Hcl.
  split; [|split].
  - now destruct (wide_planned limit t cols rs b rod e) as (Hr & _).
  - now apply (wide_run_first limit db t cols rs b rod e).
  - intros Hok. now apply (wide_run_ok limit db t cols rs b rod e).
Qed.

End Separators.

Lemma accepted_repeat {V : Type} (b : Bulk V) (r : list V) (n : nat) :
  Go.len r = valuesPerRow b -> accepted b (repeat r n) = repeat r n.
Proof.
  intros H. unfold accepted. induction n as [|n IH]; [reflexivity|].
  cbn [repeat filter]. rewrite H, Z.eqb_refl. now rewrite IH.
Qed.

Lemma batched_upsert_separator_witness :
  exists l,
    l <> []
    /\ run (InsertWith 5 Ex.ok true) Ex.xy4 = (Ex.xy4, calls l, Val tt)
    /\ forall sv,
         In sv l ->
         exists r,
           fst sv
           = trimLast (initStr Ex.xy4
                       ++ Go.rep (placeholderStrHelper Ex.xy4) r)
             ++ " ON DUPLICATE KEY UPDATE x=VALUES(x),y=VALUES(y)".
Proof.
  apply (batched_upsert_separator 5 Ex.ok "t" ["x"; "y"] Ex.rows_xy4 Ex.xy4
           " ON DUPLICATE KEY UPDATE x=VALUES(x),y=VALUES(y)").
  - reflexivity.
  - vm_compute. discriminate.
  - vm_compute. discriminate.
  - reflexivity.
  - vm_compute. discriminate.
  - vm_compute. discriminate.
  - split; reflexivity.
  - vm_compute. reflexivity.
Defined.

Lemma lastn_app (x e : string) (k : nat) :
  (k <= String.length e)%nat -> lastn k (x ++ e) = lastn k e.
Proof.
  intros Hk. unfold lastn. rewrite GoFacts.length_append.
  replace (String.length x + String.length e - k)%nat
    with (String.length x + (String.length e - k))%nat by lia.
  apply GoFacts.drop_app.
Qed.

(** The separators are not those of the specification.  Columns a and b:
    with one row, the text of the single-statement branch is not the one
    a split on [", "] gives; with 30000 rows, that is 60000 values, the
    text of the batched branch does not end with the clause a split on
    [","] gives. *)
Lemma upsert_separators_not_as_specified :
  (clause Ex.ab1 true SpecSays.single_sep
   = Some " ON DUPLICATE KEY UPDATE a=VALUES(a),b=VALUES(b)"
   /\ ~ (forall e,
           clause Ex.ab1 true SpecSays.single_sep = Some e ->
           snd (fst (run (Insert Ex.ok true) Ex.ab1))
           = [CPrepare ("INSERT INTO t(a, b) VALUES (?,?)" ++ e);
              CExec ("INSERT INTO t(a, b) VALUES (?,?)" ++ e) [1; 2]]))
  /\ (exists (b : Bulk Z) (text : string) (log : list (call Z)),
        built "t" ["a"; "b"] Ex.rows_ab = Some b
        /\ PLACEHOLDER_LIMIT <= Go.len (vals b)
        /\ run (Insert Ex.ok true) b = (b, CPrepare text :: log, Val tt)
        /\ clause b true SpecSays.batched_sep
           = Some " ON DUPLICATE KEY UPDATE a=VALUES(a), b=VALUES( b)"
        /\ ~ (exists q,
                text
                = q ++ " ON DUPLICATE KEY UPDATE a=VALUES(a), b=VALUES( b)")).
Proof.
  split.
  - assert (Hc : clause Ex.ab1 true SpecSays.single_sep
                 = Some " ON DUPLICATE KEY UPDATE a=VALUES(a),b=VALUES(b)")
      by (vm_compute; reflexivity).
    split; [exact Hc|]. intros H.
    specialize (H _ Hc). vm_compute in H. discriminate H.
  - assert (HI : Init (V:=Z) zero "t" ["a"; "b"] = Some Ex.ab0)
      by reflexivity.
    assert (Hex : exists b, built "t" ["a"; "b"] Ex.rows_ab = Some b)
      by (unfold built; rewrite HI; eexists; reflexivity).
    destruct Hex as [b Hb].
    assert (Hcols : Go.len ["a"; "b"] <= Go.int_max)
      by (vm_compute; discriminate).
    destruct (built_inv _ _ _ _ Hb) as (b0 & HI' & _ & Hinit & _ & Hh & _).
    rewrite HI in HI'. injection HI' as <-.
    cbn [initStr placeholderStrHelper Ex.ab0] in Hinit, Hh.
    destruct (built_shape _ _ _ _ Hb) as (_ & Hvpr & _ & Hrows).
    change (Go.len ["a"; "b"]) with 2 in Hvpr.
    assert (HN : List.length (accepted b Ex.rows_ab) = Z.to_nat 30000).
    { unfold Ex.rows_ab.
      rewrite accepted_repeat by (rewrite Hvpr; reflexivity).
      apply repeat_length. }
    rewrite HN in Hrows.
    assert (Hlen : Go.len (vals b) = 60000).
    { rewrite (proj1 Hrows), Hvpr, Z2Nat.id by discriminate. reflexivity. }
    assert (Hmem : Go.slen (initStr b) + Go.slen (placeholderStr b)
                   <= Go.int_max).
    { rewrite (proj2 Hrows), Hinit, Hh. unfold Go.slen.
      rewrite GoFacts.length_rep, Nat2Z.inj_mul, Z2Nat.id by discriminate.
      vm_compute. discriminate. }
    assert (Hgood : clause b true ", "
                    = Some " ON DUPLICATE KEY UPDATE a=VALUES(a),b=VALUES(b)")
      by (unfold clause; rewrite Hinit; vm_compute; reflexivity).
    assert (Hbad : clause b true SpecSays.batched_sep
                   = Some " ON DUPLICATE KEY UPDATE a=VALUES(a), b=VALUES( b)")
      by (unfold clause; rewrite Hinit; vm_compute; reflexivity).
    pose proof (built_run PLACEHOLDER_LIMIT Ex.ok "t" ["a"; "b"] Ex.rows_ab b
                  true _ eq_refl ltac:(vm_compute; discriminate) Hcols Hb
                  Hmem ltac:(rewrite Hlen; vm_compute; discriminate)
                  ltac:(split; reflexivity) Hgood) as Hrun.
    unfold planned in Hrun.
    assert (HK : Z.to_nat (batchCount PLACEHOLDER_LIMIT b) = 1%nat)
      by (unfold batchCount; rewrite Hlen; reflexivity).
    rewrite HK in Hrun. cbn [seq map calls flat_map app fst snd] in Hrun.
    match type of Hrun with
    | _ = (_, [CPrepare ?t; ?c], _) => exists b, t, [c]
    end.
    split; [exact Hb|]. split; [rewrite Hlen; discriminate|].
    split; [exact Hrun|]. split; [exact Hbad|].
    intros [q Hq]. apply (f_equal (lastn 3)) in Hq.
    rewrite !lastn_app in Hq by (apply Nat.leb_le; reflexivity).
    vm_compute in Hq. discriminate Hq.
Qed.

Lemma wide_cols_len : Go.len Ex.wide_cols = 60001.
Proof.
  unfold Go.len, Ex.wide_cols. rewrite repeat_length.
  apply Z2Nat.id. discriminate.
Qed.

Lemma wide_row_len : Go.len Ex.wide_row = 60001.
Proof.
  unfold Go.len, Ex.wide_row. rewrite repeat_length.
  apply Z2Nat.id. discriminate.
Qed.

Lemma wide_built : built "t" Ex.wide_cols [Ex.wide_row] = Some Ex.wide.
Proof.
  assert (Hex : exists b, built "t" Ex.wide_cols [Ex.wide_row] = Some b).
  { unfold built.
    destruct (Init zero "t" Ex.wide_cols) as [b0|] eqn:HI.
    - eexists. reflexivity.
    - exfalso. pose proof wide_cols_len as Hlen.
      apply Init_none_iff in HI.
      + rewrite HI in Hlen. discriminate Hlen.
      + rewrite Hlen. vm_compute. discriminate. }
  destruct Hex as [b Hb]. unfold Ex.wide. rewrite Hb. reflexivity.
Qed.

(** The claim of a configuration error fails on a builder with 60001
    columns and one row: nothing is reported to the caller, and the
    prefix alone is prepared and executed as a first batch. *)
Lemma Insert_accepts_too_wide_rows :
  built "t" Ex.wide_cols [Ex.wide_row] = Some Ex.wide
  /\ PLACEHOLDER_LIMIT < valuesPerRow Ex.wide
  /\ PLACEHOLDER_LIMIT / valuesPerRow Ex.wide = 0
  /\ exists l,
       run (Insert Ex.ok false) Ex.wide
       = (Ex.wide,
          CPrepare (trimLast (initStr Ex.wide))
          :: CExec (trimLast (initStr Ex.wide)) [] :: calls l,
          Val tt).
Proof.
  pose proof wide_built as Hb.
  pose proof wide_cols_len as Hlen. pose proof wide_row_len as Hrow.
  destruct (built_shape _ _ _ _ Hb) as (Hinit & Hvpr & _ & _ & Hph).
  rewrite Hlen in Hvpr.
  assert (Hacc : accepted Ex.wide [Ex.wide_row] = [Ex.wide_row]).
  { unfold accepted. cbn [filter]. rewrite Hvpr, Hrow. reflexivity. }
  split; [exact Hb|]. rewrite Hvpr.
  split; [reflexivity|]. split; [reflexivity|].
  destruct (wide_run_ok PLACEHOLDER_LIMIT Ex.ok "t" Ex.wide_cols
              [Ex.wide_row] Ex.wide false EmptyString) as (l & Hrun).
  - reflexivity.
  - vm_compute. discriminate.
  - rewrite Hlen. vm_compute. discriminate.
  - exact Hb.
  - rewrite Hacc. discriminate.
  - vm_compute. discriminate.
  - rewrite Hvpr. reflexivity.
  - reflexivity.
  - split; reflexivity.
  - exists l. rewrite GoFacts.append_nil_r in Hrun. exact Hrun.
Qed.

Lemma Insert_without_configuration_check_witness :
  1 / valuesPerRow Ex.ab1 = 0
  /\ (exists log r,
        run (InsertWith 1 Ex.ok false) Ex.ab1
        = (Ex.ab1, CPrepare (trimLast (initStr Ex.ab1) ++ EmptyString) :: log, r))
  /\ (always_ok Ex.ok ->
      exists l,
        run (InsertWith 1 Ex.ok false) Ex.ab1
        = (Ex.ab1,
           CPrepare (trimLast (initStr Ex.ab1) ++ EmptyString)
           :: CExec (trimLast (initStr Ex.ab1) ++ EmptyString) [] :: calls l,
           Val tt)).
Proof.
  apply (proj2 (Insert_without_configuration_check (V:=Z) (E:=string))
           1 Ex.ok "t" ["a"; "b"] [[1; 2]] Ex.ab1 false EmptyString).
  - reflexivity.
  - vm_compute. discriminate.
  - vm_compute. discriminate.
  - reflexivity.
  - vm_compute. discriminate.
  - vm_compute. discriminate.
  - reflexivity.
  - reflexivity.
Defined.

(** ** The size of the last batch *)

(** C2.  Seven columns and 25714 rows, that is 179998 values: [Insert]
    counts ceil(179998 / 60000) = 3 batches of 60000 / 7 = 8571 rows, so
    the first two bind 59997 values each and the third one, which takes
    all that is left, has 60004 placeholder markers and binds 60004
    values, more than [PLACEHOLDER_LIMIT]. *)
Theorem last_batch_over_the_limit :
  exists (b : Bulk Z) (log : list (call Z)) (text : string) (args : list Z),
    built "t" Ex.cols7 Ex.rows7 = Some b
    /\ Go.len (vals b) = 179998
    /\ run (Insert Ex.ok false) b
       = (b, (log ++ [CPrepare text; CExec text args])%list, Val tt)
    /\ List.length log = 4%nat
    /\ Go.len args = 60004
    /\ markers text = 60004
    /\ PLACEHOLDER_LIMIT < 60004.
Proof.
  assert (HI : Init (V:=Z) zero "t" Ex.cols7 = Some Ex.seven0) by reflexivity.
  assert (Hex : exists b, built "t" Ex.cols7 Ex.rows7 = Some b)
    by (unfold built; rewrite HI; eexists; reflexivity).
  destruct Hex as [b Hb].
  assert (Hcols : Go.len Ex.cols7 <= Go.int_max) by (vm_compute; discriminate).
  destruct (built_inv _ _ _ _ Hb) as (b0 & HI' & _ & Hinit & _ & Hh & _).
  rewrite HI in HI'. injection HI' as <-.
  cbn [initStr placeholderStrHelper Ex.seven0] in Hinit, Hh.
  destruct (built_shape _ _ _ _ Hb) as (_ & Hvpr & _ & Hrows).
  change (Go.len Ex.cols7) with 7 in Hvpr.
  assert (HN : List.length (accepted b Ex.rows7) = Z.to_nat 25714).
  { unfold Ex.rows7. rewrite accepted_repeat by (rewrite Hvpr; reflexivity).
    apply repeat_length. }
  rewrite HN in Hrows.
  assert (Hlen : Go.len (vals b) = 179998).
  { rewrite (proj1 Hrows), Hvpr, Z2Nat.id by discriminate. reflexivity. }
  assert (Hmem : Go.slen (initStr b) + Go.slen (placeholderStr b)
                 <= Go.int_max).
  { rewrite (proj2 Hrows), Hinit, Hh. unfold Go.slen.
    rewrite GoFacts.length_rep, Nat2Z.inj_mul, Z2Nat.id by discriminate.
    vm_compute. discriminate. }
  pose proof (built_run PLACEHOLDER_LIMIT Ex.ok "t" Ex.cols7 Ex.rows7 b
                false EmptyString eq_refl ltac:(vm_compute; discriminate) Hcols Hb
                Hmem ltac:(rewrite Hlen; vm_compute; discriminate)
                ltac:(split; reflexivity) eq_refl) as Hrun.
  rewrite HN in Hrun. unfold planned in Hrun.
  assert (HK : Z.to_nat (batchCount PLACEHOLDER_LIMIT b) = 3%nat)
    by (unfold batchCount; rewrite Hlen; reflexivity).
  rewrite HK in Hrun. cbn [seq map calls flat_map app fst snd] in Hrun.
  assert (Hlast : rowsIn PLACEHOLDER_LIMIT b (Z.to_nat 25714) (Z.of_nat 2)
                  = 8572).
  { unfold rowsIn, batchCount, rowsPerBatch.
    rewrite Hlen, Hvpr, Z2Nat.id by discriminate. reflexivity. }
  assert (Hrpb : rowsPerBatch PLACEHOLDER_LIMIT b = 8571)
    by (unfold rowsPerBatch; rewrite Hvpr; reflexivity).
  rewrite Hlast, Hrpb, Hvpr, Hinit, Hh in Hrun.
  match type of Hrun with
  | _ = (_, [?p0; ?e0; ?p1; ?e1; CPrepare ?t; CExec _ ?a], _) =>
      exists b, [p0; e0; p1; e1], t, a
  end.
  split; [exact Hb|]. split; [exact Hlen|].
  split; [exact Hrun|].
  split; [reflexivity|].
  split; [|split; [|reflexivity]].
  - unfold Go.len in *. rewrite length_firstn, length_skipn. lia.
  - vm_compute. reflexivity.
Qed.

(** * Further properties *)

(** ** What Insert leaves alone, and the shape of its calls *)

Section Trace.

Context {V E : Type}.
Implicit Types (b : Bulk V) (db : DB V E) (log : list (call V)).

Lemma slice_prefix (s p : string) (hi : Z) :
  Go.slice s 0 hi = Some p -> exists q, s = p ++ q.
Proof.
  unfold Go.slice. destruct (_ && _); [|discriminate].
  intros H. injection H as <-.
  exists (Go.drop (Z.to_nat (hi - 0)) s). symmetry. apply GoFacts.take_drop.
Qed.

(** The single-statement branch: the builder is rewritten once, with a
    prefix of its buffer, and the calls are one Prepare, then one Exec of
    all the values if the Prepare succeeded. *)
Lemma insertAll_trace db rod b log :
  exists b' l tail r,
    insertAll db rod (b, log) = ((b', (log ++ calls l ++ tail)%list), r)
    /\ same_but_placeholders b b'
    /\ (exists q, placeholderStr b = placeholderStr b' ++ q)
    /\ (tail = []
        \/ exists t e,
             tail = [CPrepare t]
             /\ prepare_err db (log ++ calls l)%list t = Some e
             /\ r = Err e).
Proof.
  unfold insertAll, bind, get, try, set_placeholderStr, ret, db_Prepare,
    stmt_Exec. cbn [fst snd].
  destruct (Go.slice (placeholderStr b) 0 _) as [p|] eqn:Hs;
    cbn [fst snd initStr placeholderStr vals].
  - destruct (slice_prefix _ _ _ Hs) as [q Hq].
    set (b' := mkBulk (initStr b) p (vals b) (rows b) (valuesPerRow b)
                      (placeholderStrHelper b)).
    assert (Hsame : same_but_placeholders b b')
      by (unfold same_but_placeholders; cbn; auto).
    assert (Hpre : exists q, placeholderStr b = placeholderStr b' ++ q)
      by (exists q; exact Hq).
    assert (Hleaf : forall str,
      exists l tail r,
        match
          match prepare_err db log str with
          | Some e => Err e
          | None => Val str
          end
        with
        | Val a =>
            (b', ((log ++ [CPrepare str]) ++ [CExec a (vals b)])%list,
             match exec_err db (log ++ [CPrepare str]) a (vals b) with
             | Some e => Err e
             | None => Val tt
             end)
        | Err e => (b', (log ++ [CPrepare str])%list, Err e)
        | Panic => (b', (log ++ [CPrepare str])%list, Panic)
        end = ((b', (log ++ calls l ++ tail)%list), r)
        /\ (tail = []
            \/ exists t e,
                 tail = [CPrepare t]
                 /\ prepare_err db (log ++ calls l)%list t = Some e
                 /\ r = Err e)).
    { intros str. destruct (prepare_err db log str) as [e|] eqn:Hp.
      - exists [], [CPrepare str], (Err e). cbn. split; [reflexivity|].
        right. exists str, e. rewrite app_nil_r. auto.
      - exists [(str, vals b)], []. eexists. cbn.
        rewrite <- !app_assoc. cbn. split; [reflexivity | auto]. }
    destruct rod.
    + destruct (onDuplicate (initStr b) ",") as [e|].
      * destruct (Hleaf ((initStr b ++ p) ++ e)) as (l & tail & r & Hrun & Ht).
        exists b', l, tail, r. auto.
      * exists b', [], [], Panic. cbn. rewrite app_nil_r. auto.
    + destruct (Hleaf (initStr b ++ p)) as (l & tail & r & Hrun & Ht).
      exists b', l, tail, r. auto.
  - exists b, [], [], Panic. cbn. rewrite app_nil_r.
    split; [reflexivity|].
    split; [unfold same_but_placeholders; auto|].
    split; [exists EmptyString; now rewrite GoFacts.append_nil_r | auto].
Qed.

(** The loop: the same, with the error of the refused Prepare. *)
Lemma batchLoop_calls db b rod batchs rpb cpb (n : nat) :
  forall (i : Z) b0 log,
  exists l tail r,
    batchLoop db b rod batchs rpb cpb n i (b0, log)
    = ((b0, (log ++ calls l ++ tail)%list), r)
    /\ (tail = []
        \/ exists t e,
             tail = [CPrepare t]
             /\ prepare_err db (log ++ calls l)%list t = Some e
             /\ r = Err e).
Proof.
  induction n as [|n IH]; intros i b0 log.
  - exists [], [], (Val tt). cbn. rewrite app_nil_r. auto.
  - cbn [batchLoop]. destruct (i <? batchs).
    + unfold bind at 1. unfold try at 1.
      destruct (assemble b rod batchs rpb cpb i) as [sv|].
      * unfold bind at 1. unfold db_Prepare at 1. cbn [fst snd].
        destruct (prepare_err db log (fst sv)) as [e|] eqn:Hp.
        -- exists [], [CPrepare (fst sv)], (Err e). cbn.
           split; [reflexivity|]. right. exists (fst sv), e.
           rewrite app_nil_r. auto.
        -- unfold bind at 1. unfold stmt_Exec at 1. cbn [fst snd].
           destruct (exec_err db _ (fst sv) (snd sv)) as [e|].
           ++ exists [sv], [], (Err e). cbn.
              rewrite <- !app_assoc. cbn. auto.
           ++ destruct (IH (Go.add i 1) b0
                          ((log ++ [CPrepare (fst sv)])
                           ++ [CExec (fst sv) (snd sv)])%list)
                as (l & tail & r & Hrun & Ht).
              exists (sv :: l), tail, r. rewrite Hrun. split.
              ** cbn. rewrite <- !app_assoc. reflexivity.
              ** destruct Ht as [-> | (t & e & -> & Hpe & Hr)]; [auto|].
                 right. exists t, e. split; [reflexivity|].
                 split; [|exact Hr]. cbn [calls flat_map].
                 rewrite <- !app_assoc in Hpe. cbn [app] in Hpe |- *.
                 exact Hpe.
      * exists [], [], Panic. cbn. rewrite app_nil_r. auto.
    + exists [], [], (Val tt). cbn. rewrite app_nil_r. auto.
Qed.

(** [Insert] as a whole. *)
Lemma InsertWith_trace limit db rod b log :
  exists b' l tail r,
    InsertWith limit db rod (b, log) = ((b', (log ++ calls l ++ tail)%list), r)
    /\ same_but_placeholders b b'
    /\ (exists q, placeholderStr b = placeholderStr b' ++ q)
    /\ (limit <= Go.len (vals b) -> b' = b)
    /\ (tail = []
        \/ exists t e,
             tail = [CPrepare t]
             /\ prepare_err db (log ++ calls l)%list t = Some e
             /\ r = Err e).
Proof.
  unfold InsertWith. unfold bind at 1. cbn [get fst].
  destruct (Go.len (vals b) <? limit) eqn:Q.
  - destruct (insertAll_trace db rod b log)
      as (b' & l & tail & r & Hrun & A & B & C).
    exists b', l, tail, r.
    split; [exact Hrun|]. split; [exact A|]. split; [exact B|].
    split; [|exact C]. apply Z.ltb_lt in Q. lia.
  - assert (Hsame : same_but_placeholders b b)
      by (unfold same_but_placeholders; auto).
    assert (Hpre : exists q, placeholderStr b = placeholderStr b ++ q)
      by (exists EmptyString; now rewrite GoFacts.append_nil_r).
    unfold insertBatches. unfold bind at 1. cbn [get fst].
    unfold bind at 1. unfold try at 1.
    destruct (Go.div limit (valuesPerRow b)) as [rpb|].
    + match goal with
      | |- context [batchLoop ?d ?bb ?r ?k ?p ?c ?n ?i _] =>
          destruct (batchLoop_calls d bb r k p c n i b log)
            as (l & tail & res & Hrun & Ht)
      end.
      exists b, l, tail, res.
      split; [exact Hrun|]. split; [exact Hsame|]. split; [exact Hpre|].
      split; [reflexivity | exact Ht].
    + exists b, [], [], Panic. cbn [calls flat_map app]. rewrite app_nil_r.
      split; [reflexivity|]. split; [exact Hsame|]. split; [exact Hpre|].
      split; [reflexivity | left; reflexivity].
Qed.

(** X1.  Whatever the builder, the driver and the outcome, [Insert] never
    changes the prefix, the values, the row counter, the arity or the
    placeholder group of the builder, and it only ever shortens the
    placeholder buffer to one of its prefixes; in the batched branch the
    buffer is left as it is. *)
Theorem Insert_frame (limit : Z) db (rod : bool) b log :
  same_but_placeholders b (fst (fst (InsertWith limit db rod (b, log))))
  /\ (exists q,
        placeholderStr b
        = placeholderStr (fst (fst (InsertWith limit db rod (b, log)))) ++ q)
  /\ (limit <= Go.len (vals b) ->
      fst (fst (InsertWith limit db rod (b, log))) = b).
Proof.
  destruct (InsertWith_trace limit db rod b log)
    as (b' & l & tail & r & -> & A & B & C & _).
  cbn [fst]. auto.
Qed.


End Trace.

Lemma Insert_frame_witness :
  fst (fst (InsertWith 5 Ex.ok false (Ex.xy4, []))) = Ex.xy4.
Proof.
  apply (proj2 (proj2 (Insert_frame 5 Ex.ok false Ex.xy4 []))).
  vm_compute. discriminate.
Defined.

(** ** Init on any builder, and builders used more than once *)

Section Reuse.

Context {V E : Type}.
Implicit Types (b : Bulk V) (db : DB V E) (rs : list (list V)).

Lemma Init_fields b t cols b0 :
  Init b t cols = Some b0 ->
  initStr b0 = "INSERT INTO " ++ t ++ "(" ++ Go.Join cols ", " ++ ") VALUES "
  /\ placeholderStr b0 = placeholderStr b /\ vals b0 = [] /\ rows b0 = 0
  /\ valuesPerRow b0 = Go.len cols.
Proof.
  unfold Init. destruct (Go.Repeat ",?" (Go.sub (Go.len cols) 1)); [|discriminate].
  intros H. injection H as <-. cbn. auto.
Qed.

Lemma accumulate_placeholders b rs :
  placeholderStr (accumulate b rs)
  = placeholderStr b
    ++ Go.rep (placeholderStrHelper b) (List.length (accepted b rs)).
Proof.
  revert b. induction rs as [|r rs IH]; intros b.
  - cbn. now rewrite GoFacts.append_nil_r.
  - change (accumulate b (r :: rs))
      with (accumulate (fst (PrepareValues b r)) rs).
    rewrite IH. destruct (PrepareValues_fixed b r) as (_ & Hc & Hh).
    cbv zeta in Hc, Hh. rewrite Hh.
    unfold accepted. rewrite Hc. cbn [filter]. unfold PrepareValues.
    destruct (Go.len r =? valuesPerRow b); cbn [negb fst placeholderStr];
      [|reflexivity].
    cbn [List.length Go.rep]. now rewrite GoFacts.append_assoc.
Qed.

(** X3.  [Init] empties the values and the row counter but leaves the
    placeholder buffer as it finds it: on a builder used before, the
    buffer after [N] accepted rows is the old buffer followed by the [N]
    new groups, while the values are those of the new rows only. *)
Theorem Init_keeps_placeholders
    b (t : string) (cols : list string) b0 rs :
  Init b t cols = Some b0 ->
  placeholderStr (accumulate b0 rs)
  = placeholderStr b
    ++ Go.rep (placeholderStrHelper b0) (List.length (accepted b0 rs))
  /\ vals (accumulate b0 rs) = List.concat (accepted b0 rs)
  /\ Go.len (vals (accumulate b0 rs))
     = Z.of_nat (List.length (accepted b0 rs)) * Go.len cols.
Proof.
  intros HI. destruct (Init_fields _ _ _ _ HI) as (_ & I2 & I3 & _ & I5).
  split; [now rewrite accumulate_placeholders, I2|].
  split; [now rewrite accumulate_vals, I3|].
  rewrite accumulate_vals, I3. cbn [app].
  unfold accepted. rewrite <- I5. clear.
  induction rs as [|r rs IH]; [reflexivity|].
  cbn [filter]. destruct (Go.len r =? valuesPerRow b0) eqn:Q; [|exact IH].
  apply Z.eqb_eq in Q. cbn [List.concat List.length].
  unfold Go.len in *. rewrite length_app. lia.
Qed.

(** With a row accepted, the buffer ends with the closing parenthesis and
    the separator of the last group. *)
Lemma built_placeholders_paren t cols rs b :
  Go.len cols <= Go.int_max ->
  built t cols rs = Some b ->
  accepted b rs <> [] ->
  exists q,
    placeholderStr b = q ++ "),"
    /\ trimLast (placeholderStr b) = q ++ ")"
    /\ trimLast (q ++ ")") = q.
Proof.
  intros Hmax Hb Hne.
  destruct (built_helper _ _ _ _ Hmax Hb) as (_ & Hh & _).
  destruct (built_shape _ _ _ _ Hb) as (_ & _ & _ & _ & Hp).
  destruct (accepted b rs) as [|r l]; [congruence|]. cbn [List.length] in Hp.
  rewrite <- rep_snoc in Hp. rewrite Hh in Hp at 2.
  set (q := Go.rep (placeholderStrHelper b) (List.length l)
            ++ "(?" ++ Go.rep ",?" (Z.to_nat (valuesPerRow b - 1))).
  assert (Hq : placeholderStr b = q ++ ")" ++ String "," EmptyString).
  { rewrite Hp. unfold q. rewrite !GoFacts.append_assoc. reflexivity. }
  exists q. split; [exact Hq|]. split.
  - rewrite Hq. apply GoFacts.trimLast_app.
  - rewrite <- (GoFacts.append_nil_r q) at 1.
    rewrite GoFacts.append_assoc. rewrite GoFacts.trimLast_app.
    apply GoFacts.append_nil_r.
Qed.

Lemma InsertWith_single_log limit db b rod e log :
  placeholderStr b <> EmptyString ->
  Go.slen (placeholderStr b) <= Go.int_max ->
  Go.len (vals b) < limit ->
  clause b rod "," = Some e ->
  InsertWith limit db rod (b, log)
  = ((trimmed b,
      fst (attempt db log (initStr b ++ trimLast (placeholderStr b) ++ e)
                   (vals b))),
     snd (attempt db log (initStr b ++ trimLast (placeholderStr b) ++ e)
                  (vals b))).
Proof.
  intros Hne Hmax Hn Hcl. unfold InsertWith.
  unfold bind at 1. cbn [get fst].
  replace (Go.len (vals b) <? limit) with true
    by (symmetry; apply Z.ltb_lt; lia).
  now apply insertAll_run.
Qed.

(** X4.  [Insert] is not repeatable on the single-statement branch: the
    first call, whatever the driver answers, leaves the buffer without
    its last separator, and a second call on the same builder trims one
    byte more, so that the statement it prepares has lost the closing
    parenthesis of its last group. *)
Theorem second_Insert_cuts_a_group
    (limit : Z) (t : string) (cols : list string) rs b :
  Go.len cols <= Go.int_max ->
  built t cols rs = Some b ->
  accepted b rs <> [] ->
  Go.slen (placeholderStr b) <= Go.int_max ->
  Go.len (vals b) < limit ->
  exists q,
    placeholderStr b = q ++ "),"
    /\ forall db log,
         InsertWith limit db false (b, log)
         = ((trimmed b, fst (attempt db log (initStr b ++ q ++ ")") (vals b))),
            snd (attempt db log (initStr b ++ q ++ ")") (vals b)))
         /\ placeholderStr (trimmed b) = q ++ ")"
         /\ forall db' log',
              InsertWith limit db' false (trimmed b, log')
              = ((trimmed (trimmed b),
                  fst (attempt db' log' (initStr b ++ q) (vals b))),
                 snd (attempt db' log' (initStr b ++ q) (vals b))).
Proof.
  intros Hmax Hb Hne Hmem Hn.
  destruct (built_placeholders_paren _ _ _ _ Hmax Hb Hne) as (q & Hq & Ht & Ht2).
  exists q. split; [exact Hq|]. intros db log.
  assert (Hne1 : placeholderStr b <> EmptyString)
    by (rewrite Hq; destruct q; discriminate).
  split; [|split].
  - rewrite (InsertWith_single_log limit db b false EmptyString log)
      by (assumption || reflexivity).
    rewrite Ht, GoFacts.append_nil_r. reflexivity.
  - cbn [trimmed placeholderStr]. exact Ht.
  - intros db' log'.
    rewrite (InsertWith_single_log limit db' (trimmed b) false EmptyString log').
    + cbn [trimmed initStr placeholderStr vals].
      rewrite Ht, Ht2, GoFacts.append_nil_r. reflexivity.
    + cbn [trimmed placeholderStr]. rewrite Ht. destruct q; discriminate.
    + cbn [trimmed placeholderStr]. rewrite Ht.
      rewrite Hq in Hmem. unfold Go.slen in *.
      rewrite !GoFacts.length_append in *. cbn [String.length] in *. lia.
    + cbn [trimmed vals]. exact Hn.
    + reflexivity.
Qed.




End Reuse.

(** ** The text and the values of the batches *)

Section Markers.

Lemma markers_append (a b : string) :
  markers (a ++ b) = markers a + markers b.
Proof.
  induction a as [|c a IH]; [reflexivity|]. cbn [append markers].
  rewrite IH. lia.
Qed.

Lemma markers_rep (s : string) (n : nat) :
  markers (Go.rep s n) = Z.of_nat n * markers s.
Proof.
  induction n as [|n IH]; [reflexivity|]. cbn [Go.rep].
  rewrite markers_append, IH. lia.
Qed.

Lemma trimLast_snoc (x : string) (c : ascii) :
  trimLast (x ++ String c EmptyString) = x.
Proof.
  rewrite <- (GoFacts.append_nil_r x) at 2.
  rewrite <- (GoFacts.trimLast_app x EmptyString c). reflexivity.
Qed.

(** The groups of [r] rows without the last separator: [r] groups joined
    by commas. *)
Lemma rep_group (g : string) (n : nat) :
  Go.rep (g ++ ",") n ++ g = Go.Join (repeat g (S n)) ",".
Proof.
  induction n as [|n IH]; [reflexivity|].
  cbn [Go.rep]. rewrite GoFacts.append_assoc, IH.
  rewrite GoFacts.append_assoc. reflexivity.
Qed.

Lemma trimLast_groups (x g : string) (r : nat) :
  (1 <= r)%nat ->
  trimLast (x ++ Go.rep (g ++ ",") r)
  = x ++ Go.Join (repeat g r) ",".
Proof.
  intros Hr. destruct r as [|n]; [lia|].
  rewrite <- rep_snoc. rewrite <- rep_group.
  replace (x ++ Go.rep (g ++ ",") n ++ g ++ ",")
    with ((x ++ Go.rep (g ++ ",") n) ++ g ++ String "," EmptyString)
    by (now rewrite !GoFacts.append_assoc).
  rewrite GoFacts.trimLast_app. now rewrite GoFacts.append_assoc.
Qed.

Lemma markers_group (k : nat) :
  markers ("(?" ++ Go.rep ",?" k ++ ")") = Z.of_nat k + 1.
Proof.
  rewrite !markers_append, markers_rep.
  change (markers "(?") with 1. change (markers ",?") with 1.
  change (markers ")") with 0. lia.
Qed.

Lemma markers_Join_repeat (g : string) (r : nat) :
  markers (Go.Join (repeat g r) ",") = Z.of_nat r * markers g.
Proof.
  destruct r as [|n]; [reflexivity|].
  rewrite <- rep_group, markers_append, markers_rep, markers_append.
  cbn [markers Ascii.eqb Bool.eqb]. lia.
Qed.

End Markers.

Section Batches.

Context {V E : Type}.
Implicit Types (b : Bulk V) (db : DB V E) (rs : list (list V)).

(** The group of one row without its separator. *)
Lemma built_group t cols rs b :
  Go.len cols <= Go.int_max ->
  built t cols rs = Some b ->
  placeholderStrHelper b
  = ("(?" ++ Go.rep ",?" (Z.to_nat (valuesPerRow b - 1)) ++ ")") ++ ","
  /\ markers ("(?" ++ Go.rep ",?" (Z.to_nat (valuesPerRow b - 1)) ++ ")")
     = valuesPerRow b.
Proof.
  intros Hmax Hb.
  destruct (built_helper _ _ _ _ Hmax Hb) as (Hc & Hh & _).
  split.
  - rewrite Hh. rewrite !GoFacts.append_assoc. reflexivity.
  - rewrite markers_group. lia.
Qed.

(** The values of batch [k] of the closed form are whole rows. *)
Lemma batch_vals_len b (N : nat) limit (k : nat) :
  1 <= valuesPerRow b ->
  holds_rows b N ->
  0 < limit /\ 4 * limit <= Go.int_max ->
  limit <= Go.len (vals b) ->
  Z.of_nat k < batchCount limit b ->
  0 <= rowsIn limit b N (Z.of_nat k)
  /\ Go.len (firstn (Z.to_nat (rowsIn limit b N (Z.of_nat k) * valuesPerRow b))
               (skipn (Z.to_nat (rowsPerBatch limit b * valuesPerRow b
                                 * Z.of_nat k))
                      (vals b)))
     = rowsIn limit b N (Z.of_nat k) * valuesPerRow b.
Proof.
  intros Hc Hrows Hlim Hn Hk.
  destruct (rowsIn_bounds b N limit Hc Hrows Hlim Hn (Z.of_nat k)
              ltac:(lia)) as [Hr0 Hr1].
  pose proof (plan_rpb b limit Hc Hlim) as (Hp0 & _).
  split; [exact Hr0|].
  pose proof (proj1 Hrows) as Hlv.
  unfold Go.len in *. rewrite length_firstn, length_skipn.
  set (r := rowsIn limit b N (Z.of_nat k)) in *.
  set (rpb := rowsPerBatch limit b) in *.
  assert (H1 : (rpb * Z.of_nat k + r) * valuesPerRow b
               <= Z.of_nat N * valuesPerRow b)
    by (apply Z.mul_le_mono_nonneg_r; lia).
  assert (H2 : 0 <= r * valuesPerRow b) by (apply Z.mul_nonneg_nonneg; lia).
  assert (H3 : 0 <= rpb * valuesPerRow b * Z.of_nat k)
    by (repeat apply Z.mul_nonneg_nonneg; lia).
  lia.
Qed.

(** The statement prefix ends with a space. *)
Lemma built_prefix_space t cols rs b :
  built t cols rs = Some b ->
  exists x, initStr b = x ++ " " /\ markers x = markers (initStr b).
Proof.
  intros Hb. destruct (built_shape _ _ _ _ Hb) as (Hi & _).
  exists ("INSERT INTO " ++ t ++ "(" ++ Go.Join cols ", " ++ ") VALUES").
  assert (Hx : initStr b
               = ("INSERT INTO " ++ t ++ "(" ++ Go.Join cols ", " ++ ") VALUES")
                 ++ " ").
  { rewrite Hi. rewrite !GoFacts.append_assoc. reflexivity. }
  split; [exact Hx|]. rewrite Hx, (markers_append _ " ").
  change (markers " ") with 0. lia.
Qed.

(** X6.  In the batched branch the text of every batch has exactly as
    many placeholder markers as the batch binds values, besides the
    question marks that the prefix and the upsert clause themselves
    contain: text and values of a batch are cut at the same rows. *)
Theorem markers_match_values
    (limit : Z) db (t : string) (cols : list string) rs b (rod : bool)
    (e : string) :
  0 < limit -> 4 * limit <= Go.int_max ->
  Go.len cols <= Go.int_max ->
  built t cols rs = Some b ->
  Go.slen (initStr b) + Go.slen (placeholderStr b) <= Go.int_max ->
  limit <= Go.len (vals b) ->
  always_ok db ->
  clause b rod ", " = Some e ->
  exists l : list (string * list V),
    run (InsertWith limit db rod) b = (b, calls l, Val tt)
    /\ forall sv,
         In sv l ->
         markers (fst sv)
         = markers (initStr b) + markers e + Go.len (snd sv).
Proof.
  intros H0 H1 H2 Hb Hmem Hn Hok Hcl.
  destruct (built_helper _ _ _ _ H2 Hb) as (A & _ & _ & _).
  destruct (built_shape _ _ _ _ Hb) as (_ & _ & _ & D).
  destruct (built_group _ _ _ _ H2 Hb) as (Hg & Hmg).
  destruct (built_prefix_space _ _ _ _ Hb) as (x & Hx & Hmx).
  exists (planned limit b (List.length (accepted b rs)) e).
  split; [apply (built_run limit db t cols rs b rod e); assumption|].
  intros sv Hin. unfold planned in Hin. apply in_map_iff in Hin.
  destruct Hin as (k & <- & Hk). apply in_seq in Hk. cbn [fst snd].
  destruct (batch_vals_len b _ limit k A D (conj H0 H1) Hn ltac:(lia))
    as (Hr0 & ->).
  set (r := rowsIn limit b (List.length (accepted b rs)) (Z.of_nat k)) in *.
  rewrite markers_append.
  destruct (Z.to_nat r) as [|n] eqn:Er.
  - assert (Hz : r * valuesPerRow b = 0) by (apply Z.mul_eq_0; lia).
    cbn [Go.rep]. rewrite GoFacts.append_nil_r. rewrite Hx at 1.
    rewrite trimLast_snoc. lia.
  - rewrite Hg, trimLast_groups by lia.
    rewrite markers_append, markers_Join_repeat, Hmg. lia.
Qed.

(** X7.  When a row fits under the limit, every batch of the batched
    branch is made of whole rows, at least one: its text is the prefix,
    then [r >= 1] placeholder groups joined by commas with no separator
    left at the end, then the clause, and it binds [r * valuesPerRow]
    values.  No statement is sent without a row. *)
Theorem batches_are_whole_rows
    (limit : Z) db (t : string) (cols : list string) rs b (rod : bool)
    (e : string) :
  0 < limit -> 4 * limit <= Go.int_max ->
  Go.len cols <= Go.int_max ->
  built t cols rs = Some b ->
  Go.slen (initStr b) + Go.slen (placeholderStr b) <= Go.int_max ->
  limit <= Go.len (vals b) ->
  always_ok db ->
  clause b rod ", " = Some e ->
  valuesPerRow b <= limit ->
  exists l : list (string * list V),
    run (InsertWith limit db rod) b = (b, calls l, Val tt)
    /\ forall sv,
         In sv l ->
         exists r : nat,
           (1 <= r)%nat
           /\ fst sv
              = initStr b
                ++ Go.Join
                     (repeat ("(?" ++ Go.rep ",?"
                                        (Z.to_nat (valuesPerRow b - 1))
                                   ++ ")") r) ","
                ++ e
           /\ Go.len (snd sv) = Z.of_nat r * valuesPerRow b.
Proof.
  intros H0 H1 H2 Hb Hmem Hn Hok Hcl Hfit.
  destruct (built_helper _ _ _ _ H2 Hb) as (A & _ & _ & _).
  destruct (built_shape _ _ _ _ Hb) as (_ & _ & _ & D).
  destruct (built_group _ _ _ _ H2 Hb) as (Hg & _).
  pose proof (plan_rows_left b _ limit A D (conj H0 H1) Hn) as Hleft.
  pose proof (plan_rpb b limit A (conj H0 H1)) as (Hp0 & Hp1 & Hp2).
  exists (planned limit b (List.length (accepted b rs)) e).
  split; [apply (built_run limit db t cols rs b rod e); assumption|].
  intros sv Hin. unfold planned in Hin. apply in_map_iff in Hin.
  destruct Hin as (k & <- & Hk). apply in_seq in Hk. cbn [fst snd].
  destruct (batch_vals_len b _ limit k A D (conj H0 H1) Hn ltac:(lia))
    as (Hr0 & ->).
  assert (Hr1 : 1 <= rowsIn limit b (List.length (accepted b rs))
                       (Z.of_nat k)).
  { unfold rowsIn.
    destruct (Z.of_nat k =? batchCount limit b - 1) eqn:Q.
    - apply Z.eqb_eq in Q. rewrite Q. lia.
    - assert (1 <= rowsPerBatch limit b); [|lia].
      assert (valuesPerRow b < (rowsPerBatch limit b + 1) * valuesPerRow b)
        by lia.
      nia. }
  set (r := rowsIn limit b (List.length (accepted b rs)) (Z.of_nat k)) in *.
  exists (Z.to_nat r). split; [lia|]. split.
  - rewrite Hg, trimLast_groups by lia.
    now rewrite GoFacts.append_assoc.
  - rewrite Z2Nat.id by lia. reflexivity.
Qed.

(** X8.  Every batch but the last binds at most [limit] values, and when
    [valuesPerRow] divides the limit so does the last one: then no
    statement exceeds the limit. *)
Theorem batches_within_limit
    (limit : Z) db (t : string) (cols : list string) rs b (rod : bool)
    (e : string) :
  0 < limit -> 4 * limit <= Go.int_max ->
  Go.len cols <= Go.int_max ->
  built t cols rs = Some b ->
  Go.slen (initStr b) + Go.slen (placeholderStr b) <= Go.int_max ->
  limit <= Go.len (vals b) ->
  always_ok db ->
  clause b rod ", " = Some e ->
  exists l : list (string * list V),
    run (InsertWith limit db rod) b = (b, calls l, Val tt)
    /\ (forall k sv,
          nth_error l k = Some sv -> (S k < List.length l)%nat ->
          Go.len (snd sv) <= limit)
    /\ (limit mod valuesPerRow b = 0 ->
        forall sv, In sv l -> Go.len (snd sv) <= limit).
Proof.
  intros H0 H1 H2 Hb Hmem Hn Hok Hcl.
  destruct (built_helper _ _ _ _ H2 Hb) as (A & _ & _ & _).
  destruct (built_shape _ _ _ _ Hb) as (_ & _ & _ & D).
  pose proof (plan_K b _ limit A D (conj H0 H1) Hn) as (HK1 & HK2 & HK3).
  pose proof (plan_rpb b limit A (conj H0 H1)) as (Hp0 & Hp1 & Hp2).
  set (N := List.length (accepted b rs)) in *.
  assert (Hfull : forall k : nat,
            Z.of_nat k < batchCount limit b ->
            Z.of_nat k <> batchCount limit b - 1 ->
            rowsIn limit b N (Z.of_nat k) * valuesPerRow b <= limit).
  { intros k Hk Hne. unfold rowsIn.
    replace (Z.of_nat k =? batchCount limit b - 1) with false
      by (symmetry; apply Z.eqb_neq; exact Hne).
    exact Hp1. }
  exists (planned limit b N e).
  split; [apply (built_run limit db t cols rs b rod e); assumption|].
  split.
  - intros k sv Hnth Hlast. unfold planned in *.
    rewrite length_map, length_seq in Hlast.
    apply nth_error_map_seq in Hnth. destruct Hnth as [Hk ->]. cbn [snd].
    destruct (batch_vals_len b N limit k A D (conj H0 H1) Hn ltac:(lia))
      as (_ & ->).
    apply Hfull; lia.
  - intros Hdiv sv Hin. unfold planned in Hin. apply in_map_iff in Hin.
    destruct Hin as (k & <- & Hk). apply in_seq in Hk. cbn [snd].
    destruct (batch_vals_len b N limit k A D (conj H0 H1) Hn ltac:(lia))
      as (_ & ->).
    destruct (Z.eq_dec (Z.of_nat k) (batchCount limit b - 1)) as [Hl|Hl];
      [|apply Hfull; lia].
    assert (Hexact : rowsPerBatch limit b * valuesPerRow b = limit).
    { unfold rowsPerBatch.
      pose proof (Z.div_mod limit (valuesPerRow b) ltac:(lia)). lia. }
    unfold rowsIn.
    replace (Z.of_nat k =? batchCount limit b - 1) with true
      by (symmetry; apply Z.eqb_eq; exact Hl).
    rewrite Hl. fold N.
    replace ((Z.of_nat N
              - rowsPerBatch limit b * (batchCount limit b - 1))
             * valuesPerRow b)
      with (Z.of_nat N * valuesPerRow b
            - rowsPerBatch limit b * valuesPerRow b
              * (batchCount limit b - 1)) by ring.
    rewrite Hexact. lia.
Qed.

End Batches.

(** ** Init, and the upsert clause read back from the prefix *)

Section Columns.

Context {V : Type}.
Implicit Types (b : Bulk V).

(** X9.  [Init] panics exactly when it is given no column (the negative
    count of [strings.Repeat]), whatever the builder and the table name;
    with a column it gives a builder whose arity is the number of
    columns and whose placeholder group has one marker per column and
    [2 * (valuesPerRow + 1)] bytes, the width [Insert] cuts the buffer
    by. *)
Theorem Init_needs_a_column b (t : string) (cols : list string) :
  Go.len cols <= Go.int_max ->
  (Init b t cols = None <-> cols = [])
  /\ forall b0,
       Init b t cols = Some b0 ->
       valuesPerRow b0 = Go.len cols
       /\ 1 <= valuesPerRow b0
       /\ markers (placeholderStrHelper b0) = valuesPerRow b0
       /\ Go.slen (placeholderStrHelper b0) = 2 * (valuesPerRow b0 + 1).
Proof.
  intros Hmax. assert (H0 : 0 <= Go.len cols) by (unfold Go.len; lia).
  assert (Hsub : Go.sub (Go.len cols) 1 = Go.len cols - 1).
  { unfold Go.sub. apply GoFacts.wrap_small.
    unfold Go.int_min, Go.int_max in *. lia. }
  unfold Init, Go.Repeat. rewrite Hsub. split.
  - destruct cols as [|c cols].
    + split; reflexivity.
    + assert (1 <= Go.len (c :: cols))
        by (unfold Go.len; cbn [List.length]; lia).
      replace (Go.len (c :: cols) - 1 <? 0) with false
        by (symmetry; apply Z.ltb_ge; lia).
      split; discriminate.
  - intros b0. destruct (Go.len cols - 1 <? 0) eqn:Q; [discriminate|].
    apply Z.ltb_ge in Q. intros H. injection H as <-.
    cbn [valuesPerRow placeholderStrHelper].
    split; [reflexivity|]. split; [lia|]. split.
    + change (markers ("(?" ++ Go.rep ",?" (Z.to_nat (Go.len cols - 1))
                            ++ "),") = Go.len cols).
      rewrite !markers_append, markers_rep.
      change (markers "(?") with 1. change (markers ",?") with 1.
      change (markers "),") with 0. lia.
    + change (Go.slen ("(?" ++ Go.rep ",?" (Z.to_nat (Go.len cols - 1))
                            ++ "),") = 2 * (Go.len cols + 1)).
      unfold Go.slen.
      rewrite !GoFacts.length_append, GoFacts.length_rep.
      cbn [String.length]. lia.
Qed.

End Columns.

Section Upsert.

Lemma prefix_nil (s : string) : String.prefix EmptyString s = true.
Proof. destruct s; reflexivity. Qed.

Lemma prefix_cons (c x : ascii) (p s : string) :
  String.prefix (String c p) (String x s)
  = if Ascii.eqb x c then String.prefix p s else false.
Proof.
  cbn [String.prefix]. destruct (ascii_dec c x) as [->|Hne].
  - now rewrite Ascii.eqb_refl.
  - replace (Ascii.eqb x c) with false; [reflexivity|].
    symmetry. apply Ascii.eqb_neq. congruence.
Qed.

Lemma has_byte_append (c : ascii) (a b : string) :
  has_byte c (a ++ b) = has_byte c a || has_byte c b.
Proof.
  induction a as [|x a IH]; [reflexivity|]. cbn [append has_byte].
  rewrite IH. apply orb_assoc.
Qed.

Lemma has_byte_Join (c : ascii) (cols : list string) (sep : string) :
  Forall (fun v => has_byte c v = false) cols ->
  has_byte c sep = false ->
  has_byte c (Go.Join cols sep) = false.
Proof.
  intros H Hs. induction H as [|v l Hv Hl IH]; [reflexivity|].
  destruct l as [|w l]; [exact Hv|].
  change (Go.Join (v :: w :: l) sep) with (v ++ sep ++ Go.Join (w :: l) sep).
  rewrite !has_byte_append, Hv, Hs, IH. reflexivity.
Qed.

Lemma Index_cons (x : ascii) (s sub : string) :
  Go.Index (String x s) sub
  = if String.prefix sub (String x s) then 0
    else if Go.Index s sub <? 0 then -1 else Go.Index s sub + 1.
Proof. reflexivity. Qed.

(** The first occurrence of a byte. *)
Lemma Index_byte (c : ascii) (p r : string) :
  has_byte c p = false ->
  Go.Index (p ++ String c r) (String c EmptyString) = Go.slen p.
Proof.
  intros H. induction p as [|x p IH].
  - cbn [append].
    rewrite Index_cons, prefix_cons, Ascii.eqb_refl, prefix_nil. reflexivity.
  - cbn [has_byte] in H. apply orb_false_iff in H. destruct H as [Hx Hp].
    cbn [append]. rewrite Index_cons, prefix_cons, Hx, (IH Hp).
    replace (Go.slen p <? 0) with false
      by (symmetry; apply Z.ltb_ge; unfold Go.slen; lia).
    unfold Go.slen. cbn [String.length]. lia.
Qed.

Lemma split_from_cons (sep cur : string) (x : ascii) (s : string) :
  Go.split_from sep 0 cur (String x s)
  = if String.prefix sep (String x s)
    then cur :: Go.split_from sep (String.length sep - 1) EmptyString s
    else Go.split_from sep 0 (cur ++ String x EmptyString) s.
Proof. reflexivity. Qed.

Lemma split_from_skip (sep cur : string) (k : nat) (x : ascii) (s : string) :
  Go.split_from sep (S k) cur (String x s) = Go.split_from sep k cur s.
Proof. reflexivity. Qed.

(** A piece without comma is read to its end, for a separator that
    starts with a comma. *)
Lemma split_from_plain (sep' cur c rest : string) :
  has_byte "," c = false ->
  Go.split_from (String "," sep') 0 cur (c ++ rest)
  = Go.split_from (String "," sep') 0 (cur ++ c) rest.
Proof.
  revert cur. induction c as [|x c IH]; intros cur H.
  - cbn [append]. now rewrite GoFacts.append_nil_r.
  - cbn [has_byte] in H. apply orb_false_iff in H. destruct H as [Hx Hc].
    cbn [append]. rewrite split_from_cons, prefix_cons, Hx, (IH _ Hc).
    rewrite GoFacts.append_assoc. reflexivity.
Qed.

(** Splitting the joined columns on the separator they were joined with
    gives the columns back. *)
Lemma Split_Join_same (cur c : string) (cols : list string) :
  Forall (fun v => has_byte "," v = false) (c :: cols) ->
  Go.split_from ", " 0 cur (Go.Join (c :: cols) ", ") = (cur ++ c) :: cols.
Proof.
  revert cur c. induction cols as [|d r IH]; intros cur c H.
  - inversion H; subst. change (Go.Join [c] ", ") with c.
    rewrite <- (GoFacts.append_nil_r c) at 1.
    rewrite split_from_plain by assumption. reflexivity.
  - inversion H as [|? ? Hc Hr]; subst.
    change (Go.Join (c :: d :: r) ", ")
      with (c ++ ", " ++ Go.Join (d :: r) ", ").
    rewrite split_from_plain by assumption. cbn [append].
    rewrite split_from_cons, !prefix_cons, !Ascii.eqb_refl, prefix_nil.
    change (String.length ", " - 1)%nat with 1%nat.
    rewrite split_from_skip, (IH _ _ Hr). reflexivity.
Qed.

(** Splitting them on the comma alone leaves the space of the separator
    in front of every column but the first. *)
Lemma Split_Join_comma (cur c : string) (cols : list string) :
  Forall (fun v => has_byte "," v = false) (c :: cols) ->
  Go.split_from "," 0 cur (Go.Join (c :: cols) ", ")
  = (cur ++ c) :: map (append " ") cols.
Proof.
  revert cur c. induction cols as [|d r IH]; intros cur c H.
  - inversion H; subst. change (Go.Join [c] ", ") with c.
    rewrite <- (GoFacts.append_nil_r c) at 1.
    rewrite split_from_plain by assumption. reflexivity.
  - inversion H as [|? ? Hc Hr]; subst.
    change (Go.Join (c :: d :: r) ", ")
      with (c ++ ", " ++ Go.Join (d :: r) ", ").
    rewrite split_from_plain by assumption. cbn [append].
    rewrite split_from_cons, prefix_cons, Ascii.eqb_refl, prefix_nil.
    change (String.length "," - 1)%nat with 0%nat.
    rewrite split_from_cons, prefix_cons.
    change (Ascii.eqb " " ",") with false. cbn [append].
    rewrite (IH " " d Hr). reflexivity.
Qed.

(** The loop of lines 53-55 and 99-101. *)
Lemma upsert_fold (acc c : string) (cols : list string) :
  fold_left (fun endStr v => endStr ++ (v ++ "=VALUES(" ++ v ++ "),"))
            (c :: cols) acc
  = acc ++ Go.Join (map upsert_term (c :: cols)) "," ++ ",".
Proof.
  revert acc c. induction cols as [|d r IH]; intros acc c.
  - cbn [fold_left map]. change (Go.Join [upsert_term c] ",")
      with (upsert_term c). unfold upsert_term.
    rewrite !GoFacts.append_assoc. reflexivity.
  - change (fold_left _ (c :: d :: r) acc)
      with (fold_left
              (fun endStr v => endStr ++ (v ++ "=VALUES(" ++ v ++ "),"))
              (d :: r) (acc ++ (c ++ "=VALUES(" ++ c ++ "),"))).
    rewrite IH.
    change (Go.Join (map upsert_term (c :: d :: r)) ",")
      with (upsert_term c ++ "," ++ Go.Join (map upsert_term (d :: r)) ",").
    unfold upsert_term at 2. rewrite !GoFacts.append_assoc. reflexivity.
Qed.

(** The clause read back from a prefix made by [Init], given the pieces
    the column list splits into. *)
Lemma onDuplicate_pieces (t sep : string) (cols pieces : list string) :
  plain_table t ->
  Forall (fun v => has_byte ")" v = false) cols ->
  Go.Split (Go.Join cols ", ") sep = pieces ->
  pieces <> [] ->
  Go.slen ("INSERT INTO " ++ t ++ "(" ++ Go.Join cols ", " ++ ") VALUES ")
  <= Go.int_max ->
  Go.slen (upsert_text pieces) < Go.int_max ->
  onDuplicate
    ("INSERT INTO " ++ t ++ "(" ++ Go.Join cols ", " ++ ") VALUES ") sep
  = Some (upsert_text pieces).
Proof.
  intros [Ht1 Ht2] Hcols Hsplit Hne Hmax Hmax2.
  set (J := Go.Join cols ", ") in *.
  set (P := "INSERT INTO " ++ t).
  assert (E1 : "INSERT INTO " ++ t ++ "(" ++ J ++ ") VALUES "
               = P ++ String "(" (J ++ ") VALUES ")).
  { unfold P. rewrite !GoFacts.append_assoc. reflexivity. }
  assert (E2 : "INSERT INTO " ++ t ++ "(" ++ J ++ ") VALUES "
               = (P ++ "(" ++ J) ++ String ")" " VALUES ").
  { unfold P. rewrite !GoFacts.append_assoc. reflexivity. }
  assert (E3 : "INSERT INTO " ++ t ++ "(" ++ J ++ ") VALUES "
               = (P ++ "(") ++ J ++ ") VALUES ").
  { unfold P. rewrite !GoFacts.append_assoc. reflexivity. }
  assert (HP1 : has_byte "(" P = false)
    by (unfold P; rewrite has_byte_append, Ht1; reflexivity).
  assert (HP2 : has_byte ")" (P ++ "(" ++ J) = false).
  { unfold P. rewrite !has_byte_append, Ht2.
    unfold J. rewrite has_byte_Join by (assumption || reflexivity).
    reflexivity. }
  assert (Hfirst : Go.Index ("INSERT INTO " ++ t ++ "(" ++ J ++ ") VALUES ")
                            "(" = Go.slen P)
    by (rewrite E1; apply (Index_byte "(" P _ HP1)).
  assert (Hsecond : Go.Index ("INSERT INTO " ++ t ++ "(" ++ J ++ ") VALUES ")
                             ")" = Go.slen (P ++ "(" ++ J))
    by (rewrite E2; apply (Index_byte ")" _ _ HP2)).
  unfold onDuplicate. cbv zeta. rewrite Hfirst, Hsecond.
  rewrite E3 in Hmax |- *.
  assert (Hlen : Go.slen ((P ++ "(") ++ J ++ ") VALUES ")
                 = Go.slen P + 1 + Go.slen J + 9).
  { rewrite !GoFacts.slen_append. unfold Go.slen at 2 4.
    cbn [String.length]. lia. }
  assert (HlP : 0 <= Go.slen P) by (unfold Go.slen; lia).
  assert (HlJ : 0 <= Go.slen J) by (unfold Go.slen; lia).
  assert (Hadd : Go.add (Go.slen P) 1 = Go.slen P + 1).
  { unfold Go.add. apply GoFacts.wrap_small.
    unfold Go.int_min, Go.int_max in *. lia. }
  rewrite Hadd.
  assert (Hsec : Go.slen (P ++ "(" ++ J) = Go.slen P + 1 + Go.slen J).
  { rewrite !GoFacts.slen_append. unfold Go.slen at 2.
    cbn [String.length]. lia. }
  rewrite Hsec, GoFacts.slice_some by lia.
  replace (Z.to_nat (Go.slen P + 1))
    with (String.length (P ++ "(") + 0)%nat
    by (rewrite GoFacts.length_append; unfold Go.slen;
        cbn [String.length]; lia).
  rewrite GoFacts.drop_app, GoFacts.drop_0.
  replace (Z.to_nat (Go.slen P + 1 + Go.slen J - (Go.slen P + 1)))
    with (String.length J + 0)%nat by (unfold Go.slen; lia).
  rewrite GoFacts.take_app, GoFacts.take_0, GoFacts.append_nil_r.
  rewrite Hsplit. destruct pieces as [|c r]; [congruence|].
  rewrite upsert_fold.
  assert (Hend : " ON DUPLICATE KEY UPDATE "
                 ++ Go.Join (map upsert_term (c :: r)) "," ++ ","
                 = upsert_text (c :: r) ++ ",").
  { unfold upsert_text. now rewrite GoFacts.append_assoc. }
  rewrite Hend, GoFacts.slice_trim.
  - rewrite trimLast_snoc. reflexivity.
  - destruct (upsert_text (c :: r)); discriminate.
  - rewrite GoFacts.slen_append. unfold Go.slen at 2.
    cbn [String.length]. lia.
Qed.

End Upsert.

Section Edges.

Context {V E : Type}.
Implicit Types (b : Bulk V) (db : DB V E) (rs : list (list V)).

Lemma built_columns t cols rs b :
  built t cols rs = Some b -> cols <> [].
Proof.
  intros Hb. destruct (built_inv _ _ _ _ Hb) as (b0 & HI & _).
  intros ->. discriminate HI.
Qed.

(** X10.  The upsert clause of the batched branch (lines 94-102): for a
    table name without parenthesis and column names without closing
    parenthesis or comma, the clause read back from the prefix is one
    [c=VALUES(c)] term per column, in the order of the columns, joined by
    commas, with no separator left at the end. *)
Theorem upsert_clause_batched_branch
    (t : string) (cols : list string) rs b :
  built t cols rs = Some b ->
  plain_table t ->
  Forall plain_column cols ->
  Go.slen (initStr b) <= Go.int_max ->
  Go.slen (upsert_text cols) < Go.int_max ->
  onDuplicate (initStr b) ", " = Some (upsert_text cols).
Proof.
  intros Hb Ht Hcols Hmax Hmax2.
  pose proof (built_columns _ _ _ _ Hb) as Hne.
  destruct (built_shape _ _ _ _ Hb) as (Hi & _). rewrite Hi in *.
  apply onDuplicate_pieces; try assumption.
  - eapply Forall_impl; [|exact Hcols]. intros v Hv. exact (proj1 Hv).
  - destruct cols as [|c r]; [congruence|]. unfold Go.Split.
    rewrite Split_Join_same; [reflexivity|].
    eapply Forall_impl; [|exact Hcols]. intros v Hv. exact (proj2 Hv).
Qed.

(** X11.  The upsert clause of the single-statement branch (lines 48-56)
    splits the column list on the comma alone: for the same names, every
    column but the first comes back with the space of the separator in
    front of it, in both places of its term. *)
Theorem upsert_clause_single_branch
    (t : string) (cols : list string) rs b :
  built t cols rs = Some b ->
  plain_table t ->
  Forall plain_column cols ->
  Go.slen (initStr b) <= Go.int_max ->
  Go.slen (upsert_text (respaced cols)) < Go.int_max ->
  onDuplicate (initStr b) "," = Some (upsert_text (respaced cols)).
Proof.
  intros Hb Ht Hcols Hmax Hmax2.
  pose proof (built_columns _ _ _ _ Hb) as Hne.
  destruct (built_shape _ _ _ _ Hb) as (Hi & _). rewrite Hi in *.
  apply onDuplicate_pieces; try assumption.
  - eapply Forall_impl; [|exact Hcols]. intros v Hv. exact (proj1 Hv).
  - destruct cols as [|c r]; [congruence|]. unfold Go.Split.
    rewrite Split_Join_comma; [reflexivity|].
    eapply Forall_impl; [|exact Hcols]. intros v Hv. exact (proj2 Hv).
  - destruct cols; [congruence | discriminate].
Qed.

Lemma trimLast_after (a s : string) :
  s <> EmptyString -> trimLast (a ++ s) = a ++ trimLast s.
Proof.
  intros Hs. unfold trimLast. rewrite GoFacts.length_append.
  destruct s as [|c s]; [congruence|]. cbn [String.length].
  replace (String.length a + S (String.length s) - 1)%nat
    with (String.length a + (S (String.length s) - 1))%nat by lia.
  apply GoFacts.take_app.
Qed.

Lemma rep_nonempty (h : string) (n : nat) :
  h <> EmptyString -> (1 <= n)%nat -> Go.rep h n <> EmptyString.
Proof.
  intros Hh Hn. destruct n as [|n]; [lia|]. cbn [Go.rep].
  destruct h; [congruence | discriminate].
Qed.

Lemma nth_error_planned (f : nat -> string * list V) (n k : nat) :
  (k < n)%nat -> nth_error (map f (seq 0 n)) k = Some (f k).
Proof.
  intros Hk. rewrite nth_error_map, nth_error_seq.
  replace (k <? n)%nat with true by (symmetry; apply Nat.ltb_lt; exact Hk).
  reflexivity.
Qed.

(** The last batch of the closed form when the batches before it hold
    [m] rows. *)
Lemma last_batch_all b (N : nat) (m : Z) :
  holds_rows b N -> (1 <= N)%nat ->
  placeholderStrHelper b <> EmptyString ->
  m = 0 ->
  trimLast (initStr b
            ++ Go.rep (placeholderStrHelper b) (Z.to_nat (Z.of_nat N - m)))
  = initStr b ++ trimLast (placeholderStr b)
  /\ firstn (Z.to_nat ((Z.of_nat N - m) * valuesPerRow b))
            (skipn (Z.to_nat m) (vals b))
     = vals b.
Proof.
  intros [Hv Hp] HN Hh ->. rewrite Z.sub_0_r, Nat2Z.id. split.
  - rewrite <- Hp. apply trimLast_after. rewrite Hp.
    now apply rep_nonempty.
  - cbn [Z.to_nat skipn]. apply firstn_all2. unfold Go.len in Hv. lia.
Qed.

(** X12.  With exactly [limit] values the batched branch is taken (the
    test of line 41 is strict) and makes one batch: one statement with
    every group and every value, the clause split on the separator of
    the batched branch, and the builder left as it was. *)
Theorem exactly_limit_values
    (limit : Z) db (t : string) (cols : list string) rs b (rod : bool)
    (e : string) :
  0 < limit -> 4 * limit <= Go.int_max ->
  Go.len cols <= Go.int_max ->
  built t cols rs = Some b ->
  Go.slen (initStr b) + Go.slen (placeholderStr b) <= Go.int_max ->
  Go.len (vals b) = limit ->
  always_ok db ->
  clause b rod ", " = Some e ->
  run (InsertWith limit db rod) b
  = (b,
     [CPrepare (initStr b ++ trimLast (placeholderStr b) ++ e);
      CExec (initStr b ++ trimLast (placeholderStr b) ++ e) (vals b)],
     Val tt).
Proof.
  intros H0 H1 H2 Hb Hmem Hn Hok Hcl.
  destruct (built_helper _ _ _ _ H2 Hb) as (A & Hh & _ & _).
  destruct (built_shape _ _ _ _ Hb) as (_ & _ & _ & D).
  rewrite (built_run limit db t cols rs b rod e) by (assumption || lia).
  set (N := List.length (accepted b rs)) in *.
  assert (HK : batchCount limit b = 1).
  { unfold batchCount. rewrite Hn.
    pose proof (GoFacts.ceil_div_bounds limit limit H0). nia. }
  assert (HN : (1 <= N)%nat).
  { destruct D as [Hv _]. rewrite Hn in Hv.
    destruct N; [cbn in Hv; lia | lia]. }
  unfold planned. rewrite HK. change (seq 0 (Z.to_nat 1)) with [0%nat].
  cbn [map]. unfold rowsIn. rewrite HK. change (Z.of_nat 0) with 0.
  change (0 =? 1 - 1) with true. cbv iota.
  destruct (last_batch_all b N
              (rowsPerBatch limit b * 0) D HN
              ltac:(rewrite Hh; discriminate) ltac:(lia)) as [Ht Hvs].
  rewrite Ht.
  replace (rowsPerBatch limit b * valuesPerRow b * 0) with
    (rowsPerBatch limit b * 0) by lia.
  rewrite Hvs. cbn [calls flat_map fst snd app].
  rewrite GoFacts.append_assoc. reflexivity.
Qed.

(** X13.  When a row has more values than the limit, the batched branch
    works with zero rows per batch: with a driver that accepts them it
    sends at least two statements, every one before the last without any
    placeholder group and without values (the prefix less its last
    byte, then the clause), and the last one with every row. *)
Theorem row_wider_than_limit
    (limit : Z) db (t : string) (cols : list string) rs b (rod : bool)
    (e : string) :
  0 < limit -> 4 * limit <= Go.int_max ->
  Go.len cols <= Go.int_max ->
  built t cols rs = Some b ->
  Go.slen (initStr b) + Go.slen (placeholderStr b) <= Go.int_max ->
  limit <= Go.len (vals b) ->
  always_ok db ->
  clause b rod ", " = Some e ->
  limit < valuesPerRow b ->
  exists l : list (string * list V),
    run (InsertWith limit db rod) b = (b, calls l, Val tt)
    /\ (2 <= List.length l)%nat
    /\ (forall k,
          (S k < List.length l)%nat ->
          nth_error l k = Some (trimLast (initStr b) ++ e, []))
    /\ nth_error l (List.length l - 1)
       = Some (initStr b ++ trimLast (placeholderStr b) ++ e, vals b).
Proof.
  intros H0 H1 H2 Hb Hmem Hn Hok Hcl Hwide.
  destruct (built_helper _ _ _ _ H2 Hb) as (A & Hh & _ & _).
  destruct (built_shape _ _ _ _ Hb) as (_ & _ & _ & D).
  pose proof (plan_K b _ limit A D (conj H0 H1) Hn) as (HK1 & HK2 & HK3).
  set (N := List.length (accepted b rs)) in *.
  assert (Hrpb : rowsPerBatch limit b = 0)
    by (unfold rowsPerBatch; apply Z.div_small; lia).
  assert (HN : (1 <= N)%nat).
  { destruct D as [Hv _]. rewrite Hv in Hn.
    destruct N; [cbn in Hn; lia | lia]. }
  assert (HK : 2 <= batchCount limit b).
  { assert (limit < Z.of_nat N * valuesPerRow b) by nia.
    assert (batchCount limit b <> 1) by (intros Q; rewrite Q in HK3; lia).
    lia. }
  exists (planned limit b N e).
  split; [apply (built_run limit db t cols rs b rod e); assumption|].
  assert (Hlen : List.length (planned limit b N e)
                 = Z.to_nat (batchCount limit b))
    by (unfold planned; now rewrite length_map, length_seq).
  rewrite Hlen. split; [lia|]. split.
  - intros k Hk. unfold planned. rewrite nth_error_planned by lia.
    unfold rowsIn.
    replace (Z.of_nat k =? batchCount limit b - 1) with false
      by (symmetry; apply Z.eqb_neq; lia).
    rewrite Hrpb. cbn [Z.mul Z.to_nat Go.rep firstn].
    now rewrite GoFacts.append_nil_r.
  - unfold planned. rewrite nth_error_planned by lia.
    unfold rowsIn.
    replace (Z.of_nat (Z.to_nat (batchCount limit b) - 1)
             =? batchCount limit b - 1) with true
      by (symmetry; apply Z.eqb_eq; lia).
    rewrite Hrpb.
    destruct (last_batch_all b N
                (0 * Z.of_nat (Z.to_nat (batchCount limit b) - 1)) D HN
                ltac:(rewrite Hh; discriminate) ltac:(lia)) as [Ht Hvs].
    rewrite Ht.
    replace (0 * valuesPerRow b
             * Z.of_nat (Z.to_nat (batchCount limit b) - 1))
      with (0 * Z.of_nat (Z.to_nat (batchCount limit b) - 1)) by lia.
    rewrite Hvs. now rewrite GoFacts.append_assoc.
Qed.

End Edges.

(** ** The row counter *)

Section Counter.

Context {V E : Type}.
Implicit Types (b : Bulk V) (db : DB V E).

Lemma assemble_with_rows b (r : Z) (rod : bool) (K rpb cpb i : Z) :
  assemble (with_rows b r) rod K rpb cpb i = assemble b rod K rpb cpb i.
Proof. reflexivity. Qed.

Lemma batchLoop_step db b (rod : bool) (K rpb cpb : Z) (n : nat) (i : Z)
    (s : Bulk V) log :
  batchLoop db b rod K rpb cpb (S n) i (s, log)
  = if i <? K
    then
      match assemble b rod K rpb cpb i with
      | None => ((s, log), Panic)
      | Some sv =>
          match prepare_err db log (fst sv) with
          | Some e => ((s, (log ++ [CPrepare (fst sv)])%list), Err e)
          | None =>
              match exec_err db (log ++ [CPrepare (fst sv)])%list
                             (fst sv) (snd sv) with
              | Some e =>
                  ((s, ((log ++ [CPrepare (fst sv)])
                        ++ [CExec (fst sv) (snd sv)])%list), Err e)
              | None =>
                  batchLoop db b rod K rpb cpb n (Go.add i 1)
                    (s, ((log ++ [CPrepare (fst sv)])
                         ++ [CExec (fst sv) (snd sv)])%list)
              end
          end
      end
    else ((s, log), Val tt).
Proof.
  cbn [batchLoop]. destruct (i <? K); [|reflexivity].
  unfold bind, try, db_Prepare, stmt_Exec. cbn [fst snd].
  destruct (assemble b rod K rpb cpb i) as [sv|]; [|reflexivity].
  destruct (prepare_err db log (fst sv)); [reflexivity|]. cbn [fst snd].
  destruct (exec_err db (log ++ [CPrepare (fst sv)]) (fst sv) (snd sv));
    reflexivity.
Qed.

Lemma batchLoop_with_rows db b (r : Z) (rod : bool) (K rpb cpb : Z)
    (n : nat) (i : Z) (s : Bulk V) log :
  batchLoop db (with_rows b r) rod K rpb cpb n i (with_rows s r, log)
  = ((with_rows (fst (fst (batchLoop db b rod K rpb cpb n i (s, log)))) r,
      snd (fst (batchLoop db b rod K rpb cpb n i (s, log)))),
     snd (batchLoop db b rod K rpb cpb n i (s, log))).
Proof.
  revert i log. induction n as [|n IH]; intros i log; [reflexivity|].
  rewrite !batchLoop_step, assemble_with_rows.
  destruct (i <? K); [|reflexivity].
  destruct (assemble b rod K rpb cpb i) as [sv|]; [|reflexivity].
  destruct (prepare_err db log (fst sv)); [reflexivity|].
  destruct (exec_err db (log ++ [CPrepare (fst sv)]) (fst sv) (snd sv));
    [reflexivity|].
  apply IH.
Qed.

(** X14.  [Insert] neither reads nor writes the row counter: on two
    builders that differ by the counter alone it makes the same calls
    and returns the same result, and leaves the same buffers, each with
    its own counter.  Only [Init] and [PrepareValues] touch it. *)
Theorem Insert_ignores_rows (limit : Z) db (rod : bool) b (r : Z) log :
  InsertWith limit db rod (with_rows b r, log)
  = ((with_rows (fst (fst (InsertWith limit db rod (b, log)))) r,
      snd (fst (InsertWith limit db rod (b, log)))),
     snd (InsertWith limit db rod (b, log))).
Proof.
  unfold InsertWith. unfold bind at 1 2 3 4. cbn [get fst].
  change (vals (with_rows b r)) with (vals b).
  destruct (Go.len (vals b) <? limit).
  - unfold insertAll, bind, get, try, set_placeholderStr, ret, db_Prepare,
      stmt_Exec. cbn [fst snd with_rows initStr placeholderStr vals rows
      valuesPerRow placeholderStrHelper].
    destruct (Go.slice (placeholderStr b) 0
                (Go.sub (Go.slen (placeholderStr b)) 1)) as [p|];
      [|reflexivity].
    cbn [fst snd with_rows initStr placeholderStr vals rows
      valuesPerRow placeholderStrHelper].
    destruct rod.
    + destruct (onDuplicate (initStr b) ",") as [e|]; [|reflexivity].
      cbn [fst snd initStr placeholderStr vals].
      destruct (prepare_err db log _); [reflexivity|].
      cbn [fst snd initStr placeholderStr vals].
      destruct (exec_err db _ _ _); reflexivity.
    + cbn [fst snd initStr placeholderStr vals].
      destruct (prepare_err db log _); [reflexivity|].
      cbn [fst snd initStr placeholderStr vals].
      destruct (exec_err db _ _ _); reflexivity.
  - unfold insertBatches. unfold bind at 1 3 5 7. cbn [get fst].
    change (valuesPerRow (with_rows b r)) with (valuesPerRow b).
    change (vals (with_rows b r)) with (vals b).
    unfold bind at 1 2 3 4. unfold try at 1 2 3 4.
    destruct (Go.div limit (valuesPerRow b)) as [rpb|]; [|reflexivity].
    apply batchLoop_with_rows.
Qed.

End Counter.

(** ** The further properties on the worked examples *)

Lemma Init_keeps_placeholders_witness :
  placeholderStr (accumulate Ex2.xy2_again Ex.rows_xy4)
  = placeholderStr Ex2.xy2
    ++ Go.rep (placeholderStrHelper Ex2.xy2_again)
              (List.length (accepted Ex2.xy2_again Ex.rows_xy4))
  /\ vals (accumulate Ex2.xy2_again Ex.rows_xy4)
     = List.concat (accepted Ex2.xy2_again Ex.rows_xy4)
  /\ Go.len (vals (accumulate Ex2.xy2_again Ex.rows_xy4))
     = Z.of_nat (List.length (accepted Ex2.xy2_again Ex.rows_xy4))
       * Go.len ["x"; "y"].
Proof.
  apply (Init_keeps_placeholders Ex2.xy2 "t" ["x"; "y"] Ex2.xy2_again
           Ex.rows_xy4).
  reflexivity.
Defined.

Lemma second_Insert_cuts_a_group_witness :
  exists q,
    placeholderStr Ex.id1 = q ++ "),"
    /\ InsertWith PLACEHOLDER_LIMIT Ex.ok false (trimmed Ex.id1, [])
       = ((trimmed (trimmed Ex.id1),
           fst (attempt Ex.ok [] (initStr Ex.id1 ++ q) (vals Ex.id1))),
          snd (attempt Ex.ok [] (initStr Ex.id1 ++ q) (vals Ex.id1))).
Proof.
  destruct (second_Insert_cuts_a_group (E:=string) PLACEHOLDER_LIMIT "t"
              ["id"] [[7]] Ex.id1) as (q & Hq & H).
  - vm_compute. discriminate.
  - reflexivity.
  - discriminate.
  - vm_compute. discriminate.
  - reflexivity.
  - exists q. split; [exact Hq|].
    exact (proj2 (proj2 (H Ex.ok [])) Ex.ok []).
Defined.


Lemma markers_match_values_witness :
  exists l : list (string * list Z),
    run (InsertWith 5 Ex.ok true) Ex.xy4 = (Ex.xy4, calls l, Val tt)
    /\ forall sv,
         In sv l ->
         markers (fst sv)
         = markers (initStr Ex.xy4)
           + markers " ON DUPLICATE KEY UPDATE x=VALUES(x),y=VALUES(y)"
           + Go.len (snd sv).
Proof.
  apply (markers_match_values 5 Ex.ok "t" ["x"; "y"] Ex.rows_xy4 Ex.xy4 true
           " ON DUPLICATE KEY UPDATE x=VALUES(x),y=VALUES(y)").
  - reflexivity.
  - vm_compute. discriminate.
  - vm_compute. discriminate.
  - reflexivity.
  - vm_compute. discriminate.
  - vm_compute. discriminate.
  - split; reflexivity.
  - reflexivity.
Defined.

Lemma batches_are_whole_rows_witness :
  exists l : list (string * list Z),
    run (InsertWith 5 Ex.ok false) Ex.xy6 = (Ex.xy6, calls l, Val tt)
    /\ forall sv,
         In sv l ->
         exists r : nat,
           (1 <= r)%nat
           /\ fst sv
              = initStr Ex.xy6
                ++ Go.Join
                     (repeat ("(?" ++ Go.rep ",?"
                                        (Z.to_nat (valuesPerRow Ex.xy6 - 1))
                                   ++ ")") r) ","
                ++ EmptyString
           /\ Go.len (snd sv) = Z.of_nat r * valuesPerRow Ex.xy6.
Proof.
  apply (batches_are_whole_rows 5 Ex.ok "t" ["x"; "y"] Ex.rows_xy6 Ex.xy6
           false EmptyString).
  - reflexivity.
  - vm_compute. discriminate.
  - vm_compute. discriminate.
  - reflexivity.
  - vm_compute. discriminate.
  - vm_compute. discriminate.
  - split; reflexivity.
  - reflexivity.
  - vm_compute. discriminate.
Defined.

Lemma batches_within_limit_witness :
  exists l : list (string * list Z),
    run (InsertWith 4 Ex.ok false) Ex.xy6 = (Ex.xy6, calls l, Val tt)
    /\ forall sv, In sv l -> Go.len (snd sv) <= 4.
Proof.
  destruct (batches_within_limit 4 Ex.ok "t" ["x"; "y"] Ex.rows_xy6 Ex.xy6
              false EmptyString) as (l & Hrun & _ & Hall).
  - reflexivity.
  - vm_compute. discriminate.
  - vm_compute. discriminate.
  - reflexivity.
  - vm_compute. discriminate.
  - vm_compute. discriminate.
  - split; reflexivity.
  - reflexivity.
  - exists l. split; [exact Hrun|]. apply Hall. reflexivity.
Defined.

Lemma Init_needs_a_column_witness :
  valuesPerRow Ex.xy0 = Go.len ["x"; "y"]
  /\ 1 <= valuesPerRow Ex.xy0
  /\ markers (placeholderStrHelper Ex.xy0) = valuesPerRow Ex.xy0
  /\ Go.slen (placeholderStrHelper Ex.xy0) = 2 * (valuesPerRow Ex.xy0 + 1).
Proof.
  apply (proj2 (Init_needs_a_column (zero (V:=Z)) "t" ["x"; "y"]
                  ltac:(vm_compute; discriminate)) Ex.xy0).
  reflexivity.
Defined.

Lemma upsert_clause_batched_branch_witness :
  onDuplicate (initStr Ex.xy4) ", " = Some (upsert_text ["x"; "y"]).
Proof.
  apply (upsert_clause_batched_branch "t" ["x"; "y"] Ex.rows_xy4 Ex.xy4).
  - reflexivity.
  - split; reflexivity.
  - repeat constructor.
  - vm_compute. discriminate.
  - reflexivity.
Defined.

Lemma upsert_clause_single_branch_witness :
  onDuplicate (initStr Ex.xy4) "," = Some (upsert_text ["x"; " y"]).
Proof.
  apply (upsert_clause_single_branch "t" ["x"; "y"] Ex.rows_xy4 Ex.xy4).
  - reflexivity.
  - split; reflexivity.
  - repeat constructor.
  - vm_compute. discriminate.
  - reflexivity.
Defined.

Lemma exactly_limit_values_witness :
  run (InsertWith 8 Ex.ok false) Ex.xy4
  = (Ex.xy4,
     [CPrepare (initStr Ex.xy4 ++ trimLast (placeholderStr Ex.xy4)
                ++ EmptyString);
      CExec (initStr Ex.xy4 ++ trimLast (placeholderStr Ex.xy4)
             ++ EmptyString) (vals Ex.xy4)],
     Val tt).
Proof.
  apply (exactly_limit_values 8 Ex.ok "t" ["x"; "y"] Ex.rows_xy4 Ex.xy4
           false EmptyString).
  - reflexivity.
  - vm_compute. discriminate.
  - vm_compute. discriminate.
  - reflexivity.
  - vm_compute. discriminate.
  - reflexivity.
  - split; reflexivity.
  - reflexivity.
Defined.

Lemma row_wider_than_limit_witness :
  exists l : list (string * list Z),
    run (InsertWith 1 Ex.ok false) Ex.xy4 = (Ex.xy4, calls l, Val tt)
    /\ (2 <= List.length l)%nat
    /\ (forall k,
          (S k < List.length l)%nat ->
          nth_error l k
          = Some (trimLast (initStr Ex.xy4) ++ EmptyString, []))
    /\ nth_error l (List.length l - 1)
       = Some (initStr Ex.xy4 ++ trimLast (placeholderStr Ex.xy4)
               ++ EmptyString, vals Ex.xy4).
Proof.
  apply (row_wider_than_limit 1 Ex.ok "t" ["x"; "y"] Ex.rows_xy4 Ex.xy4
           false EmptyString).
  - reflexivity.
  - vm_compute. discriminate.
  - vm_compute. discriminate.
  - reflexivity.
  - vm_compute. discriminate.
  - vm_compute. discriminate.
  - split; reflexivity.
  - reflexivity.
  - reflexivity.
Defined.
